(** * Frappe MCP server: transport, dispatch and middleware

    A shallow embedding of the Streamable-HTTP JSON-RPC server
    (streamable-http-server.ts), its middleware (middleware.ts), the
    schema generator (schema-generator.ts) and the prompt and resource
    providers (prompts.ts, resources.ts), with the properties of the
    transport and dispatch layer proved over it.

    JavaScript values are an inductive type; in-memory maps (sessions,
    rate-limit entries, per-status counters) are stdpp [gmap]s; the effects
    of a handler on the Express response object are a trace of events,
    threaded through a small state-and-exception monad. *)

From Stdlib Require Import ZArith String Ascii List Lia QArith.
From stdpp Require Import base option list gmap strings fin_maps pretty.

Set Warnings "-register-all".

Local Open Scope string_scope.
Local Open Scope Z_scope.

(* ===================================================================== *)
(** ** JavaScript values *)
(* ===================================================================== *)

(** Values that flow through the server: what [JSON.parse] produces, plus
    [undefined].  Numbers are integers here (request ids, counters, status
    codes, millisecond timestamps); objects keep their keys in insertion
    order. *)
Inductive value : Type :=
| VUndefined
| VNull
| VBool (b : bool)
| VNum (n : Z)
| VStr (s : string)
| VArr (xs : list value)
| VObj (fields : list (string * value)).

(** [!!v] in JavaScript: the falsy values are [undefined], [null],
    [false], [0] and the empty string. *)
Definition truthy (v : value) : bool :=
  match v with
  | VUndefined | VNull => false
  | VBool b => b
  | VNum n => negb (n =? 0)%Z
  | VStr s => negb (String.eqb s "")
  | VArr _ | VObj _ => true
  end.

(** [a || b]. *)
Definition js_or (a b : value) : value := if truthy a then a else b.

Definition is_nullish (v : value) : bool :=
  match v with VUndefined | VNull => true | _ => false end.

(** Own-property lookup in an association list (first binding wins; object
    literals and parsed JSON have no duplicate keys). *)
Fixpoint assoc {A : Type} (k : string) (l : list (string * A)) : option A :=
  match l with
  | [] => None
  | (k', v) :: l' => if String.eqb k k' then Some v else assoc k l'
  end.

(** [v.k] for a key [k] that [Object.prototype], [Array.prototype] and
    [String.prototype] do not define ([name], [arguments], [uri], [id],
    ...): the own property of an object, [undefined] elsewhere.  Reading
    a property of [null] or [undefined] throws; callers test
    [is_nullish] first. *)
Definition get (v : value) (k : string) : value :=
  match v with
  | VObj fields => default VUndefined (assoc k fields)
  | _ => VUndefined
  end.

(** [String(v)], the conversion behind property keys and template
    literals.  [Array.prototype.join] prints [null] and [undefined]
    elements as the empty string. *)
Fixpoint to_string (v : value) : string :=
  match v with
  | VUndefined => "undefined"
  | VNull => "null"
  | VBool true => "true"
  | VBool false => "false"
  | VNum n => pretty n
  | VStr s => s
  | VArr xs =>
      (fix join (l : list value) : string :=
         match l with
         | [] => ""
         | [x] => if is_nullish x then "" else to_string x
         | x :: l' => (if is_nullish x then "" else to_string x) ++ "," ++ join l'
         end) xs
  | VObj _ => "[object Object]"
  end.

(** The names every object literal inherits from [Object.prototype]. *)
Definition object_prototype_keys : list string :=
  [ "constructor"; "__proto__"; "hasOwnProperty"; "isPrototypeOf";
    "propertyIsEnumerable"; "toLocaleString"; "toString"; "valueOf";
    "__defineGetter__"; "__defineSetter__"; "__lookupGetter__";
    "__lookupSetter__" ].

(** Thrown values.  [ZodError] carries its issue list ([error.errors])
    and its message; [JsError] is any other [Error]; [Thrown] is a
    non-[Error] value. *)
Inductive exn : Type :=
| ZodError (issues : value) (message : string)
| JsError (message : string)
| Thrown (v : value).

(** [error instanceof Error ? error.message : 'Internal error']. *)
Definition error_message (e : exn) : value :=
  match e with
  | ZodError _ m => VStr m
  | JsError m => VStr m
  | Thrown _ => VStr "Internal error"
  end.

(* ===================================================================== *)
(** ** schema-generator.ts *)
(* ===================================================================== *)

(** The Zod schema classes the generator tells apart.  [ZAny] is
    [z.any()]; [ZOther] stands for every remaining Zod class (nullable,
    default, literal, ...), with the answer of its [isOptional()]. *)
Inductive zod : Type :=
| ZObject (shape : list (string * zod))
| ZString (description : option string)
| ZNumber (description : option string)
| ZBoolean (description : option string)
| ZArray (element : zod) (description : option string)
| ZEnum (options : list string) (description : option string)
| ZRecord (valueType : option zod) (description : option string)
| ZOptional (inner : zod)
| ZUnion (options : list zod)
| ZAny
| ZOther (acceptsUndefined : bool).

(** Zod's [isOptional()] is [safeParse(undefined).success]. *)
Fixpoint isOptional (z : zod) : bool :=
  match z with
  | ZOptional _ | ZAny => true
  | ZOther b => b
  | ZUnion options => existsb isOptional options
  | _ => false
  end.

(** [if (_def.description) schema.description = _def.description]. *)
Definition with_description (description : option string)
    (fields : list (string * value)) : value :=
  match description with
  | Some d => if String.eqb d "" then VObj fields
              else VObj (fields ++ [("description", VStr d)])
  | None => VObj fields
  end.

Definition fallback_schema : value :=
  VObj [("type", VStr "object"); ("properties", VObj []);
        ("additionalProperties", VBool true)].

Definition required_of (shape : list (string * zod)) : list string :=
  map fst (List.filter (fun kv => negb (isOptional (snd kv))) shape).

Fixpoint zodToJsonSchema (zodSchema : zod) : value :=
  match zodSchema with
  | ZObject shape =>
      let properties :=
        map (fun kv => (fst kv, zodToJsonSchema (snd kv))) shape in
      let required := required_of shape in
      VObj [("type", VStr "object");
            ("properties", VObj properties);
            ("required",
              if (0 <? Z.of_nat (length required))%Z
              then VArr (map VStr required) else VUndefined);
            ("additionalProperties", VBool false);
            ("$schema", VStr "http://json-schema.org/draft-07/schema#")]
  | ZString d => with_description d [("type", VStr "string")]
  | ZNumber d => with_description d [("type", VStr "number")]
  | ZBoolean d => with_description d [("type", VStr "boolean")]
  | ZArray element d =>
      with_description d
        [("type", VStr "array"); ("items", zodToJsonSchema element)]
  | ZEnum options d =>
      with_description d
        [("type", VStr "string"); ("enum", VArr (map VStr options))]
  | ZRecord valueType d =>
      with_description d
        [("type", VStr "object"); ("properties", VObj []);
         ("additionalProperties",
           match valueType with
           | Some vt => zodToJsonSchema vt
           | None => VBool true
           end)]
  | ZOptional inner => zodToJsonSchema inner
  | ZUnion options => VObj [("anyOf", VArr (map zodToJsonSchema options))]
  | ZAny | ZOther _ => fallback_schema
  end.


Definition category_info (name description icon : string) : value :=
  VObj [("name", VStr name); ("description", VStr description);
        ("icon", VStr icon)].

Definition getToolCategories : list (string * value) :=
  [("document", category_info "Document Operations"
      "Create, read, update, delete documents in Frappe" "📄");
   ("schema", category_info "Schema Operations"
      "Get DocType schemas, field options, and metadata" "🏗️");
   ("helper", category_info "Helper Tools"
      "Utility functions for system exploration" "🔧");
   ("report", category_info "Report Operations"
      "Generate and export reports from Frappe" "📊");
   ("system", category_info "System Tools"
      "Server information and system utilities" "⚙️")].

Definition categorizeTools : list (string * list string) :=
  [("document",
     ["create_document"; "get_document"; "update_document";
      "delete_document"; "list_documents";
      "reconcile_bank_transaction_with_vouchers"]);
   ("schema",
     ["get_doctype_schema"; "get_field_options"; "get_frappe_usage_info"]);
   ("helper",
     ["find_doctypes"; "get_module_list"; "get_doctypes_in_module";
      "check_doctype_exists"; "check_document_exists"; "get_document_count";
      "get_naming_info"; "get_required_fields"; "get_api_instructions"]);
   ("report",
     ["run_query_report"; "get_report_meta"; "list_reports"; "export_report";
      "get_financial_statements"; "get_report_columns"; "run_doctype_report"]);
   ("system", ["ping"; "version"; "call_method"])].

Definition includes_name (names : list string) (name : string) : bool :=
  existsb (String.eqb name) names.

(** The category loop of [tools/list]: the first category whose list
    includes the name, ['system'] when none does. *)
Fixpoint category_of (cats : list (string * list string)) (name : string)
    : string :=
  match cats with
  | [] => "system"
  | (catName, toolNames) :: rest =>
      if includes_name toolNames name then catName else category_of rest name
  end.

(* ===================================================================== *)
(** ** Sessions (streamable-http-server.ts) *)
(* ===================================================================== *)

(** Times are milliseconds since the epoch, as [Date.now()] and
    [Date.getTime()] return them. *)
Record Session : Type := mkSession {
  sid : string;
  clientId : option string;
  createdAt : Z;
  lastActivity : Z;
  messageQueue : list value
}.

Definition SESSION_TIMEOUT : Z := 30 * 60 * 1000.

(** The session middleware: a request bearing a known [x-session-id]
    sets that session's [lastActivity] to the current time. *)
Definition touch (sessionId : option string) (now : Z)
    (sessions : gmap string Session) : gmap string Session :=
  match sessionId with
  | Some i =>
      if String.eqb i "" then sessions
      else match sessions !! i with
           | Some s =>
               <[i := mkSession (sid s) (clientId s) (createdAt s) now
                        (messageQueue s)]> sessions
           | None => sessions
           end
  | None => sessions
  end.

Definition expired (now : Z) (s : Session) : bool :=
  (SESSION_TIMEOUT <? now - lastActivity s)%Z.

(** One iteration of the sweep loop: the entry is deleted and counted
    when it is past the timeout. *)
Definition sweep_step (now : Z) (acc : gmap string Session * Z)
    (entry : string * Session) : gmap string Session * Z :=
  if expired now (snd entry)
  then (delete (fst entry) (fst acc), snd acc + 1)
  else acc.

(** The [setInterval] body: the loop runs over the entries of the map
    and deletes from that same map; it returns the map and
    [removedCount]. *)
Definition sweep (now : Z) (sessions : gmap string Session)
    : gmap string Session * Z :=
  fold_left (sweep_step now) (map_to_list sessions) (sessions, 0).

(** [updateSessionMetrics(sessions.size, sessions.size + removedCount)]
    as the sweep calls it. *)
Definition sweep_metrics (now : Z) (sessions : gmap string Session) : Z * Z :=
  let '(live, removedCount) := sweep now sessions in
  (Z.of_nat (size live), Z.of_nat (size live) + removedCount).

(* ===================================================================== *)
(** ** middleware.ts: rate limiting *)
(* ===================================================================== *)

Record RateLimitEntry : Type := mkEntry {
  count : Z;
  resetTime : Z
}.

Definition RATE_LIMIT_WINDOW : Z := 60 * 1000.
Definition RATE_LIMIT_MAX_REQUESTS : Z := 100.

(** [Math.ceil(x / 1000)] on integers. *)
Definition ceil_div_1000 (x : Z) : Z := - ((- x) / 1000).

(** [req.ip || req.headers['x-forwarded-for'] || 'unknown'].  Node joins
    repeated [x-forwarded-for] headers into one string, so the
    [Array.isArray] arm never runs. *)
Definition client_id (ip forwarded : option string) : string :=
  let nonempty o :=
    match o with
    | Some s => if String.eqb s "" then None else Some s
    | None => None
    end in
  match nonempty ip with
  | Some s => s
  | None => default "unknown" (nonempty forwarded)
  end.

(** What a middleware stage does with the request: hand it on (with the
    headers it has set) or answer it itself. *)
Inductive stage : Type :=
| Next (headers : list (string * value))
| Reply (status : Z) (body : value).

Definition rate_limit_error (id : value) (entry : RateLimitEntry) (now : Z)
    : value :=
  VObj [("jsonrpc", VStr "2.0");
        ("id", js_or id VNull);
        ("error",
          VObj [("code", VNum (-32000));
                ("message", VStr "Rate limit exceeded");
                ("data",
                  VObj [("retryAfter",
                          VNum (ceil_div_1000 (resetTime entry - now)))])])].

(** [rateLimitMiddleware], given [process.env.NODE_ENV], the client
    identity, [Date.now()] and [req.body?.id]. *)
Definition rateLimitMiddleware (NODE_ENV : option string) (clientId : string)
    (now : Z) (id : value) (rateLimitStore : gmap string RateLimitEntry)
    : gmap string RateLimitEntry * stage :=
  if negb (bool_decide (NODE_ENV = Some "production"))
  then (rateLimitStore, Next [])
  else
    let entry :=
      match rateLimitStore !! clientId with
      | Some e =>
          if (resetTime e <? now)%Z
          then mkEntry 0 (now + RATE_LIMIT_WINDOW) else e
      | None => mkEntry 0 (now + RATE_LIMIT_WINDOW)
      end in
    let entry := mkEntry (count entry + 1) (resetTime entry) in
    let rateLimitStore := <[clientId := entry]> rateLimitStore in
    if (RATE_LIMIT_MAX_REQUESTS <? count entry)%Z
    then (rateLimitStore, Reply 429 (rate_limit_error id entry now))
    else
      (rateLimitStore,
       Next [("X-RateLimit-Limit", VNum RATE_LIMIT_MAX_REQUESTS);
             ("X-RateLimit-Remaining",
               VNum (Z.max 0 (RATE_LIMIT_MAX_REQUESTS - count entry)));
             ("X-RateLimit-Reset", VNum (ceil_div_1000 (resetTime entry)))]).

(** The clean-up timer of the store: every expired entry is deleted. *)
Definition rate_sweep (now : Z) (rateLimitStore : gmap string RateLimitEntry)
    : gmap string RateLimitEntry :=
  fold_left
    (fun acc kv =>
       if (resetTime (snd kv) <? now)%Z then delete (fst kv) acc else acc)
    (map_to_list rateLimitStore) rateLimitStore.

(** [securityMiddleware]: hardening headers, and in production with a
    configured key an exact comparison of the supplied credential. *)
Definition strip_bearer (s : string) : string :=
  match index 0 "Bearer " s with
  | Some i =>
      substring 0 i s ++ substring (i + 7) (String.length s - (i + 7)) s
  | None => s
  end.

Definition hardening_headers : list (string * value) :=
  [("X-Content-Type-Options", VStr "nosniff");
   ("X-Frame-Options", VStr "DENY");
   ("X-XSS-Protection", VStr "1; mode=block");
   ("Referrer-Policy", VStr "strict-origin-when-cross-origin")].

Definition securityMiddleware (NODE_ENV MCP_API_KEY : option string)
    (x_api_key authorization : option string) (id : value) : stage :=
  let guarded :=
    bool_decide (NODE_ENV = Some "production") &&
    match MCP_API_KEY with
    | Some k => negb (String.eqb k "")
    | None => false
    end in
  let providedKey :=
    match x_api_key with
    | Some k => if String.eqb k "" then strip_bearer <$> authorization
                else Some k
    | None => strip_bearer <$> authorization
    end in
  if guarded && negb (bool_decide (providedKey = MCP_API_KEY))
  then Reply 401
         (VObj [("jsonrpc", VStr "2.0");
                ("id", js_or id VNull);
                ("error",
                  VObj [("code", VNum (-32000));
                        ("message", VStr "Unauthorized - Invalid API key")])])
  else Next hardening_headers.

(* ===================================================================== *)
(** ** middleware.ts: metrics *)
(* ===================================================================== *)

Record RequestMetrics : Type := mkRequests {
  total : Z;
  success : Z;
  error : Z;
  byTool : gmap string Z;
  byStatus : gmap Z Z
}.

Record SessionMetrics : Type := mkSessionMetrics {
  sessions_total : Z;
  sessions_active : Z
}.

(** [avgResponseTime] is a floating-point quotient in the source; it is
    kept as an exact rational. *)
Record PerformanceMetrics : Type := mkPerformance {
  avgResponseTime : Q;
  responseTimeHistory : list Z
}.

Record Metrics : Type := mkMetrics {
  requests : RequestMetrics;
  sessions : SessionMetrics;
  performance : PerformanceMetrics;
  uptime : Z
}.

Definition initial_metrics (start : Z) : Metrics :=
  mkMetrics (mkRequests 0 0 0 ∅ ∅) (mkSessionMetrics 0 0)
            (mkPerformance 0%Q []) start.

Definition with_requests (m : Metrics) (r : RequestMetrics) : Metrics :=
  mkMetrics r (sessions m) (performance m) (uptime m).

(** [m[k] = (m[k] || 0) + 1]. *)
Definition bump `{Countable K} (k : K) (m : gmap K Z) : gmap K Z :=
  <[k := default 0 (m !! k) + 1]> m.

Definition sum_list (l : list Z) : Z := fold_left Z.add l 0.

Definition mean (l : list Z) : Q :=
  (inject_Z (sum_list l) / inject_Z (Z.of_nat (length l)))%Q.

(** [metricsMiddleware] before [next()]: the request is counted. *)
Definition metricsMiddleware (m : Metrics) : Metrics :=
  let r := requests m in
  with_requests m
    (mkRequests (total r + 1) (success r) (error r) (byTool r) (byStatus r)).

(** The replacement [res.json] that [metricsMiddleware] installs, run
    when the handler writes a JSON body: [statusCode] is
    [res.statusCode], [responseTime] the elapsed milliseconds and
    [reqBody] the request body. *)
Definition record_json (statusCode responseTime : Z) (reqBody : value)
    (m : Metrics) : Metrics :=
  let history := (responseTimeHistory (performance m) ++ [responseTime])%list in
  let avg :=
    if (Z.of_nat (length history) =? 1)%Z then inject_Z responseTime
    else mean history in
  let r := requests m in
  let ok := (200 <=? statusCode)%Z && (statusCode <? 300)%Z in
  let tools :=
    if truthy reqBody
       && match get reqBody "method" with
          | VStr s => String.eqb s "tools/call"
          | _ => false
          end
       && truthy (get (get reqBody "params") "name")
    then bump (to_string (get (get reqBody "params") "name")) (byTool r)
    else byTool r in
  mkMetrics
    (mkRequests (total r)
                (if ok then success r + 1 else success r)
                (if ok then error r else error r + 1)
                tools
                (bump statusCode (byStatus r)))
    (sessions m)
    (mkPerformance avg history)
    (uptime m).

(** The counter update of [errorHandlingMiddleware]. *)
Definition count_unhandled (m : Metrics) : Metrics :=
  let r := requests m in
  with_requests m
    (mkRequests (total r) (success r) (error r + 1) (byTool r) (byStatus r)).

Definition internal_server_error (id : value) (NODE_ENV : option string)
    (stack : string) : value :=
  VObj [("jsonrpc", VStr "2.0");
        ("id", js_or id VNull);
        ("error",
          VObj [("code", VNum (-32603));
                ("message", VStr "Internal server error");
                ("data",
                  if bool_decide (NODE_ENV = Some "development")
                  then VStr stack else VUndefined)])].

(** The history clean-up timer. *)
Definition compact (m : Metrics) : Metrics :=
  let history := responseTimeHistory (performance m) in
  if (1000 <? Z.of_nat (length history))%Z
  then
    let kept := drop (length history - 500) history in
    mkMetrics (requests m) (sessions m) (mkPerformance (mean kept) kept)
              (uptime m)
  else m.

Definition updateSessionMetrics (activeCount totalCount : Z) (m : Metrics)
    : Metrics :=
  mkMetrics (requests m) (mkSessionMetrics totalCount activeCount)
            (performance m) (uptime m).


(* ===================================================================== *)
(** ** The response object as a trace of events *)
(* ===================================================================== *)

Inductive event : Type :=
| EvSetHeader (name : string) (v : value)
| EvWriteHead (status : Z) (headers : list (string * value))
| EvSSE (data : value)
    (** [sendSSE(res, data)]: the frame [data: <json>] and a blank line *)
| EvJson (status : Z) (body : value)
    (** [res.status(status).json(body)] *)
| EvEnd (status : Z)
    (** [res.status(status).end()], or [res.end()] of an open stream *)
| EvSessionSet (s : Session)
    (** [sessions.set(s.id, s)] *)
| EvHeartbeat
    (** the 30 s [setInterval] with its [close] listener *)
| EvCall (tool : string) (args : value)
    (** [toolDef.handler(args)] is invoked *).

(** [res.headersSent] after an event. *)
Definition sends_headers (ev : event) : bool :=
  match ev with
  | EvWriteHead _ _ | EvSSE _ | EvJson _ _ | EvEnd _ => true
  | _ => false
  end.

(** A computation of the handler: it extends the trace of the response
    and returns a value or throws. *)
Definition M (A : Type) : Type := list event → list event * (exn + A).

#[global] Instance M_ret : MRet M := λ A a tr, (tr, inr a).

#[global] Instance M_bind : MBind M := λ A B k m tr,
  match m tr with
  | (tr', inr a) => k a tr'
  | (tr', inl e) => (tr', inl e)
  end.

Definition throw {A : Type} (e : exn) : M A := λ tr, (tr, inl e).

Definition emit (ev : event) : M unit := λ tr, ((tr ++ [ev])%list, inr tt).

(** [try { m } catch (error) { h error }]. *)
Definition try_catch {A : Type} (m : M A) (h : exn → M A) : M A := λ tr,
  match m tr with
  | (tr', inl e) => h e tr'
  | r => r
  end.

(** [await p] for a collaborator's promise: its value, or its rejection
    thrown. *)
Definition await {A : Type} (p : exn + A) : M A := λ tr, (tr, p).

Definition headersSent : M bool := λ tr, (tr, inr (existsb sends_headers tr)).

Definition ERR_HTTP_HEADERS_SENT : exn :=
  JsError "Cannot set headers after they are sent to the client".

(** Express's [res.json] sets the content type and so throws once the
    headers are out. *)
Definition res_json (status : Z) (body : value) : M unit :=
  sent ← headersSent;
  if (sent : bool) then throw ERR_HTTP_HEADERS_SENT
  else emit (EvJson status body).

Definition sendSSE (data : value) : M unit := emit (EvSSE data).

Definition run {A : Type} (m : M A) : list event * (exn + A) := m [].

Definition res_end (status : Z) : M unit := emit (EvEnd status).

(** The pattern every branch ends with: one frame and [res.end()] on a
    stream, one JSON body otherwise. *)
Definition reply (streaming : bool) (status : Z) (payload : value) : M unit :=
  if streaming then sendSSE payload;; res_end 200
  else res_json status payload.

Definition rpc_result (id result : value) : value :=
  VObj [("jsonrpc", VStr "2.0"); ("id", id); ("result", result)].

Definition rpc_error (id err : value) : value :=
  VObj [("jsonrpc", VStr "2.0"); ("id", id); ("error", err)].

(** [v === s] for a string literal [s]. *)
Definition is_str (v : value) (s : string) : bool :=
  match v with
  | VStr s' => String.eqb s' s
  | _ => false
  end.

(** [s.includes(sub)]. *)
Definition includes (s sub : string) : bool :=
  match index 0 sub s with
  | Some _ => true
  | None => false
  end.

(** What a thrown value serialises to when a branch puts it in
    [error.data]: an [Error] has no enumerable fields. *)
Definition exn_value (e : exn) : value :=
  match e with
  | ZodError issues _ => VObj [("issues", issues); ("name", VStr "ZodError")]
  | JsError _ => VObj []
  | Thrown v => v
  end.

(* ===================================================================== *)
(** ** The tool registry *)
(* ===================================================================== *)

Record tool : Type := mkTool {
  description : string;
  schema : zod;
  handler : value → exn + value
}.

(** What [tools[key]] finds: a registry entry, or a member inherited
    from [Object.prototype], which has no [schema]. *)
Inductive member : Type :=
| Own (t : tool)
| Inherited.

Definition z_string : zod := ZString None.
Definition z_number : zod := ZNumber None.
Definition z_boolean : zod := ZBoolean None.
Definition z_filters : zod := ZRecord (Some ZAny) None.
Definition z_strings : zod := ZArray (ZString None) None.

Definition text_content (text : string) : value :=
  VObj [("content", VArr [VObj [("type", VStr "text"); ("text", VStr text)]])].

(** *** The outside world

    The Zod validator, the Frappe back end behind the tool handlers, the
    providers' data sources and the process environment are outside the
    transport layer; the server is parameterised by what they answer.
    [zparse] is [schema.parse]: the validated value, or the issues and
    message of the [ZodError] it throws.  [backend name args] is the
    outcome of the named tool's handler on validated arguments.
    [resources_listing] and [resource_lookup] are the outcomes of the
    [try] bodies of [listResources] and [getResource]; [generate] is the
    outcome of a prompt generator. *)
Class Externals : Type := {
  zparse : zod → value → (value * string) + value;
  backend : string → value → exn + value;
  packageVersion : option string;
  NODE_ENV : option string;
  MCP_API_KEY : option string;
  resources_listing : exn + list value;
  resource_lookup : value → exn + value;
  generate : string → value → exn + value
}.

Section Server.

Context {ext : Externals}.

(** [getVersion()]: the version in package.json, ['0.6.0'] when it
    cannot be read. *)
Definition getVersion : string := default "0.6.0" packageVersion.

Definition remote (name description : string)
    (shape : list (string * zod)) : string * tool :=
  (name, mkTool description (ZObject shape) (backend name)).

Definition tools : list (string * tool) :=
  [ ("ping",
      mkTool "A simple tool to check if the server is responding."
             (ZObject []) (λ _, inr (text_content "pong")));
    remote "find_doctypes"
      "Find DocTypes in the system matching a search term"
      [("search_term", ZOptional z_string); ("module", ZOptional z_string);
       ("is_table", ZOptional z_boolean); ("is_single", ZOptional z_boolean);
       ("is_custom", ZOptional z_boolean); ("limit", ZOptional z_number)];
    remote "get_module_list" "Get a list of all modules in the system" [];
    remote "check_doctype_exists" "Check if a DocType exists in the system"
      [("doctype", z_string)];
    remote "get_doctype_schema" "Get the complete schema for a DocType"
      [("doctype", z_string)];
    remote "list_documents" "List documents from Frappe with filters"
      [("doctype", z_string); ("filters", ZOptional z_filters);
       ("fields", ZOptional z_strings); ("limit", ZOptional z_number);
       ("order_by", ZOptional z_string);
       ("limit_start", ZOptional z_number)];
    remote "create_document" "Create a new document in Frappe"
      [("doctype", z_string); ("values", z_filters)];
    remote "get_document" "Retrieve a document from Frappe"
      [("doctype", z_string); ("name", z_string);
       ("fields", ZOptional z_strings)];
    remote "update_document" "Update an existing document in Frappe"
      [("doctype", z_string); ("name", z_string); ("values", z_filters)];
    remote "delete_document" "Delete a document from Frappe"
      [("doctype", z_string); ("name", z_string)];
    remote "get_field_options"
      "Get available options for a Link or Select field"
      [("doctype", z_string); ("fieldname", z_string);
       ("filters", ZOptional z_filters)];
    remote "get_frappe_usage_info"
      "Get combined information about a DocType or workflow"
      [("doctype", ZOptional z_string); ("workflow", ZOptional z_string)];
    remote "get_doctypes_in_module"
      "Get a list of DocTypes in a specific module"
      [("module", z_string)];
    remote "check_document_exists" "Check if a document exists"
      [("doctype", z_string); ("name", z_string)];
    remote "get_document_count" "Get a count of documents matching filters"
      [("doctype", z_string); ("filters", ZOptional z_filters)];
    remote "get_naming_info"
      "Get the naming series information for a DocType"
      [("doctype", z_string)];
    remote "get_required_fields"
      "Get a list of required fields for a DocType"
      [("doctype", z_string)];
    remote "get_api_instructions"
      "Get detailed instructions for using the Frappe API"
      [("category", z_string); ("operation", z_string)];
    ("version",
      mkTool "Get version information for the Frappe MCP server"
             (ZObject [])
             (λ _, inr (text_content
                          ("Frappe MCP Server version " ++ getVersion))));
    remote "call_method" "Execute a whitelisted Frappe method"
      [("method", z_string); ("params", ZOptional z_filters)];
    remote "reconcile_bank_transaction_with_vouchers"
      "Reconciles a Bank Transaction document with specified vouchers"
      [("bank_transaction_name", z_string);
       ("vouchers",
         ZArray (ZObject [("payment_doctype", z_string);
                          ("payment_name", z_string);
                          ("amount", z_number)]) None)];
    remote "run_query_report" "Execute a Frappe query report with filters"
      [("report_name", z_string); ("filters", ZOptional z_filters);
       ("user", ZOptional z_string)];
    remote "get_report_meta"
      "Get metadata for a specific report including columns and filters"
      [("report_name", z_string)];
    remote "list_reports"
      "Get a list of all available reports in the system"
      [("module", ZOptional z_string)];
    remote "export_report" "Export a report in PDF, Excel, or CSV format"
      [("report_name", z_string);
       ("file_format", ZEnum ["PDF"; "Excel"; "CSV"] None);
       ("filters", ZOptional z_filters);
       ("visible_idx", ZOptional (ZArray z_number None))];
    remote "get_financial_statements"
      "Get standard financial reports (P&L, Balance Sheet, Cash Flow)"
      [("report_type",
         ZEnum ["Profit and Loss Statement"; "Balance Sheet"; "Cash Flow"]
               None);
       ("company", z_string); ("from_date", z_string);
       ("to_date", z_string);
       ("periodicity",
         ZOptional (ZEnum ["Monthly"; "Quarterly"; "Half-Yearly"; "Yearly"]
                          None));
       ("include_default_book_entries", ZOptional z_boolean)];
    remote "get_report_columns"
      "Get the column structure for a specific report"
      [("report_name", z_string); ("filters", ZOptional z_filters)];
    remote "run_doctype_report"
      "Run a standard doctype report with filters and sorting"
      [("doctype", z_string); ("fields", ZOptional z_strings);
       ("filters", ZOptional z_filters); ("order_by", ZOptional z_string);
       ("limit", ZOptional z_number)] ].

(** [Object.keys(tools)]. *)
Definition tool_names : list string := map fst tools.

(** [tools[key]]: own entries first, then [Object.prototype]. *)
Definition tools_get (key : string) : option member :=
  match assoc key tools with
  | Some t => Some (Own t)
  | None =>
      if includes_name object_prototype_keys key then Some Inherited
      else None
  end.

(** *** resources.ts and prompts.ts *)

Definition RESOURCE_CATEGORIES : value :=
  VObj [("schemas", category_info "DocType Schemas"
           "Frappe DocType field definitions and validation rules" "🏗️");
        ("documentation", category_info "API Documentation"
           "Frappe API usage guides and examples" "📚");
        ("workflows", category_info "Business Workflows"
           "Predefined business process templates" "🔄");
        ("modules", category_info "Module Information"
           "Frappe app modules and their DocTypes" "📦");
        ("examples", category_info "Code Examples"
           "Ready-to-use code snippets and templates" "💡")].

Definition getResourceCategories : value := RESOURCE_CATEGORIES.

(** [listResources]: the body of its [try] is [resources_listing]; a
    failure is logged and answered with the empty list. *)
Definition listResources : M (list value) :=
  try_catch (await resources_listing) (λ _, mret []).

(** [getResource]: the body of its [try] is [resource_lookup uri]; a
    failure is logged and answered with [null]. *)
Definition getResource (uri : value) : M value :=
  try_catch (await (resource_lookup uri)) (λ _, mret VNull).

Definition prompt_argument (name description : string) (required : bool)
    : value :=
  VObj [("name", VStr name); ("description", VStr description);
        ("required", VBool required)].

Definition prompt (name description : string) (arguments : list value)
    : value :=
  VObj [("name", VStr name); ("description", VStr description);
        ("arguments", VArr arguments)].

Definition prompts : list value :=
  [ prompt "analyze_doctype"
      "Analyze a DocType structure and suggest improvements"
      [prompt_argument "doctype_name" "Name of the DocType to analyze" true];
    prompt "generate_api_usage"
      "Generate API usage examples for a specific DocType"
      [prompt_argument "doctype_name"
         "DocType to generate API examples for" true;
       prompt_argument "operation"
         "API operation (create, read, update, delete, list)" false];
    prompt "design_workflow"
      "Design a business workflow using Frappe DocTypes"
      [prompt_argument "business_process"
         "Description of the business process" true;
       prompt_argument "modules"
         "Relevant modules to consider (comma-separated)" false];
    prompt "troubleshoot_setup"
      "Help troubleshoot Frappe setup or configuration issues"
      [prompt_argument "issue_description"
         "Description of the issue or error" true;
       prompt_argument "module" "Module where the issue occurs" false];
    prompt "optimize_performance"
      "Analyze and suggest performance optimizations"
      [prompt_argument "performance_issue"
         "Description of performance problem" true;
       prompt_argument "doctype_name"
         "Specific DocType with performance issues" false];
    prompt "create_custom_report" "Guide through creating a custom report"
      [prompt_argument "report_requirements"
         "What data the report should show" true;
       prompt_argument "report_type"
         "Type of report (query, script, print)" false];
    prompt "integration_planning" "Plan integration with external systems"
      [prompt_argument "external_system"
         "External system to integrate with" true;
       prompt_argument "integration_type"
         "Type of integration (webhook, api, file)" false];
    prompt "data_migration" "Plan data migration strategy"
      [prompt_argument "source_system"
         "Source system for data migration" true;
       prompt_argument "target_doctypes"
         "Target DocTypes for migration" false] ].

Definition listPrompts : M (list value) := mret prompts.

(** The names [getPrompt] switches on: the prompt catalog. *)
Definition prompt_catalog : list string :=
  [ "analyze_doctype"; "generate_api_usage"; "design_workflow";
    "troubleshoot_setup"; "optimize_performance"; "create_custom_report";
    "integration_planning"; "data_migration" ].

Definition TypeError (message : string) : exn := JsError message.

(** [getPrompt]: a catalogued name runs its generator ([generate], on
    the arguments object whose fields the call site reads); any other
    name is [null]; whatever the [try] body throws is logged and
    answered with [null]. *)
Definition getPrompt (name args : value) : M value :=
  let args := match args with VUndefined => VObj [] | a => a end in
  try_catch
    (match name with
     | VStr s =>
         if includes_name prompt_catalog s then
           if is_nullish args
           then throw (TypeError "Cannot read properties of null")
           else await (generate s args)
         else mret VNull
     | _ => mret VNull
     end)
    (λ _, mret VNull).

(** *** The POST / handler *)

Record request : Type := mkRequest {
  user_agent : option string;
  accept : option string;
  req_session : option Session;
  body : value
}.

Definition streamableMethods : list string :=
  ["resources/read"; "prompts/run"].

(** [shouldStream(method, userAgent)].  [method?.startsWith] guards
    only [null] and [undefined]: any other non-string method has no
    [startsWith] to call. *)
Definition shouldStream (method : value) (userAgent : option string)
    : M bool :=
  if match userAgent with
     | Some ua => includes ua "Cursor"
     | None => false
     end
  then mret false
  else
    match method with
    | VUndefined | VNull => mret false
    | VStr m => mret (existsb (λ p, String.prefix p m) streamableMethods)
    | _ => throw (TypeError "method?.startsWith is not a function")
    end.

Inductive route : Type :=
| RInitialize | RToolsList | RToolsCall
| RResourcesList | RResourcesRead
| RPromptsList | RPromptsGet
| RNotificationsInitialized | RNotificationsMessage
| RDefault.

(** The [switch (method)]. *)
Definition route_of (method : value) : route :=
  if is_str method "initialize" then RInitialize
  else if is_str method "tools/list" then RToolsList
  else if is_str method "tools/call" then RToolsCall
  else if is_str method "resources/list" then RResourcesList
  else if is_str method "resources/read" then RResourcesRead
  else if is_str method "prompts/list" then RPromptsList
  else if is_str method "prompts/get" then RPromptsGet
  else if is_str method "notifications/initialized"
       then RNotificationsInitialized
  else if is_str method "notifications/message" then RNotificationsMessage
  else RDefault.

(** [const { a, b = {} } = params]: destructuring [null] throws. *)
Definition destructure (params : value) : M value :=
  if is_nullish params
  then throw (TypeError "Cannot destructure 'params' as it is null.")
  else mret params.

(** A destructuring default: [{}] for [undefined] only. *)
Definition or_empty (v : value) : value :=
  match v with
  | VUndefined => VObj []
  | _ => v
  end.

Definition session_id_value (session : option Session) : value :=
  match session with
  | Some s => VStr (sid s)
  | None => VUndefined
  end.

Definition initialize_result (session : option Session) : value :=
  VObj [("protocolVersion", VStr "2025-06-18");
        ("capabilities",
          VObj [("tools", VObj [("listChanged", VBool true)]);
                ("resources",
                  VObj [("subscribe", VBool true);
                        ("listChanged", VBool true)]);
                ("prompts", VObj [("listChanged", VBool true)]);
                ("logging", VObj [("level", VStr "info")])]);
        ("serverInfo",
          VObj [("name", VStr "frappe-mcp-server");
                ("version", VStr getVersion)]);
        ("sessionId", session_id_value session)].

Definition tool_entry (entry : string * tool) : value :=
  let category := category_of categorizeTools (fst entry) in
  VObj [("name", VStr (fst entry));
        ("description", VStr (description (snd entry)));
        ("inputSchema", zodToJsonSchema (schema (snd entry)));
        ("category", VStr category);
        ("categoryInfo",
          default VUndefined (assoc category getToolCategories))].

Definition tools_list_result : value :=
  let toolList := map tool_entry tools in
  VObj [("tools", VArr toolList);
        ("categories", VObj getToolCategories);
        ("totalTools", VNum (Z.of_nat (length toolList)))].

(** The error object of the collaborator [catch] arms. *)
Definition internal_error (e : exn) : value :=
  VObj [("code", VNum (-32603));
        ("message", error_message e);
        ("data",
          if bool_decide (NODE_ENV = Some "development")
          then exn_value e else VUndefined)].

(** The truthiness of [tools[key]]. *)
Definition has_tool (key : string) : bool :=
  match tools_get key with
  | Some _ => true
  | None => false
  end.

Definition case_initialize (streaming : bool) (id : value)
    (session : option Session) : M unit :=
  reply streaming 200 (rpc_result id (initialize_result session)).

Definition case_tools_list (streaming : bool) (id : value) : M unit :=
  reply streaming 200 (rpc_result id tools_list_result).

Definition tool_not_found (toolName : value) : value :=
  VObj [("code", VNum (-32601));
        ("message", VStr ("Tool '" ++ to_string toolName ++ "' not found"));
        ("data", VObj [("availableTools", VArr (map VStr tool_names))])].

Definition progress_frame (toolName : value) : value :=
  VObj [("jsonrpc", VStr "2.0");
        ("method", VStr "tools/call/progress");
        ("params",
          VObj [("tool", toolName); ("status", VStr "started")])].

(** The error object built in the [catch] of [tools/call]. *)
Definition tool_error (e : exn) : value :=
  VObj [("code",
          VNum (match e with ZodError _ _ => -32602 | _ => -32603 end));
        ("message", error_message e);
        ("data",
          match e with ZodError issues _ => issues | _ => VUndefined end)].

Definition case_tools_call (streaming : bool) (id params : value)
    : M unit :=
  p ← destructure params;
  let toolName := get p "name" in
  let toolArgs := or_empty (get p "arguments") in
  if negb (truthy toolName)
     || negb (has_tool (to_string toolName))
  then reply streaming 404 (rpc_error id (tool_not_found toolName))
  else
    try_catch
      (match tools_get (to_string toolName) with
       | Some (Own toolDef) =>
           validatedArgs ←
             match zparse (schema toolDef) toolArgs with
             | inl (issues, message) => throw (ZodError issues message)
             | inr v => mret v
             end;
           (if streaming then sendSSE (progress_frame toolName)
            else mret tt);;
           emit (EvCall (to_string toolName) validatedArgs);;
           result ← await (handler toolDef validatedArgs);
           reply streaming 200 (rpc_result id result)
       | _ =>
           throw (TypeError
             "Cannot read properties of undefined (reading 'parse')")
       end)
      (λ error, reply streaming 500 (rpc_error id (tool_error error))).

Definition case_resources_list (streaming : bool) (id : value) : M unit :=
  try_catch
    (resources ← listResources;
     reply streaming 200
       (rpc_result id
          (VObj [("resources", VArr resources);
                 ("categories", getResourceCategories);
                 ("totalResources",
                   VNum (Z.of_nat (length resources)))])))
    (λ error, reply streaming 500 (rpc_error id (internal_error error))).

Definition case_resources_read (streaming : bool) (id params : value)
    : M unit :=
  p ← destructure params;
  let uri := get p "uri" in
  if negb (truthy uri)
  then reply streaming 400
         (rpc_error id
            (VObj [("code", VNum (-32602));
                   ("message", VStr "Missing required parameter: uri")]))
  else
    try_catch
      (resource ← getResource uri;
       if negb (truthy resource)
       then reply streaming 404
              (rpc_error id
                 (VObj [("code", VNum (-32601));
                        ("message",
                          VStr ("Resource not found: " ++ to_string uri))]))
       else reply streaming 200
              (rpc_result id (VObj [("contents", VArr [resource])])))
      (λ error, reply streaming 500 (rpc_error id (internal_error error))).

Definition case_prompts_list (streaming : bool) (id : value) : M unit :=
  try_catch
    (prompts ← listPrompts;
     reply streaming 200
       (rpc_result id
          (VObj [("prompts", VArr prompts);
                 ("totalPrompts", VNum (Z.of_nat (length prompts)))])))
    (λ error, reply streaming 500 (rpc_error id (internal_error error))).

Definition prompt_not_found (name : value) : value :=
  VObj [("code", VNum (-32601));
        ("message", VStr ("Prompt not found: " ++ to_string name))].

Definition case_prompts_get (streaming : bool) (id params : value)
    : M unit :=
  p ← destructure params;
  let name := get p "name" in
  let promptArgs := or_empty (get p "arguments") in
  if negb (truthy name)
  then reply streaming 400
         (rpc_error id
            (VObj [("code", VNum (-32602));
                   ("message", VStr "Missing required parameter: name")]))
  else
    try_catch
      (prompt ← getPrompt name promptArgs;
       if negb (truthy prompt)
       then reply streaming 404 (rpc_error id (prompt_not_found name))
       else reply streaming 200 (rpc_result id prompt))
      (λ error, reply streaming 500 (rpc_error id (internal_error error))).

Definition case_notifications_initialized (streaming : bool) : M unit :=
  if streaming then res_end 200 else res_end 204.

Definition case_notifications_message (id : value) : M unit :=
  if truthy id
  then res_json 400
         (rpc_error id
            (VObj [("code", VNum (-32600));
                   ("message",
                     VStr "Notifications should not include an id")]))
  else res_end 204.

Definition case_default (streaming : bool) (id method : value) : M unit :=
  reply streaming 404
    (rpc_error id
       (VObj [("code", VNum (-32601));
              ("message",
                VStr ("Method '" ++ to_string method ++ "' not found"))])).

(** The [switch (method)] with its branches. *)
Definition dispatch (streaming : bool) (method id params : value)
    (session : option Session) : M unit :=
  match route_of method with
  | RInitialize => case_initialize streaming id session
  | RToolsList => case_tools_list streaming id
  | RToolsCall => case_tools_call streaming id params
  | RResourcesList => case_resources_list streaming id
  | RResourcesRead => case_resources_read streaming id params
  | RPromptsList => case_prompts_list streaming id
  | RPromptsGet => case_prompts_get streaming id params
  | RNotificationsInitialized => case_notifications_initialized streaming
  | RNotificationsMessage => case_notifications_message id
  | RDefault => case_default streaming id method
  end.

Definition invalid_request (id : value) : value :=
  rpc_error (js_or id VNull)
    (VObj [("code", VNum (-32600));
           ("message", VStr "Invalid Request - must use JSON-RPC 2.0")]).

Definition sse_headers (session : option Session)
    : list (string * value) :=
  [("Content-Type", VStr "text/event-stream");
   ("Cache-Control", VStr "no-cache");
   ("Connection", VStr "keep-alive");
   ("X-Accel-Buffering", VStr "no");
   ("x-session-id", js_or (session_id_value session) (VStr ""))].

(** The first frame of a streamed response. *)
Definition streaming_started (id : value) (session : option Session)
    : value :=
  rpc_result id
    (VObj [("streaming", VBool true);
           ("sessionId", session_id_value session)]).

(** Reading [req.body]'s fields throws when there is no body object. *)
Definition req_body (req : request) : M value :=
  if is_nullish (body req)
  then throw (TypeError "Cannot read properties of undefined")
  else mret (body req).

(** The [try] block of [app.post('/')]; [uuid] is what [randomUUID()]
    returns and [now] the current time. *)
Definition post_try (uuid : string) (now : Z) (req : request) : M unit :=
  b ← req_body req;
  let jsonrpc := get b "jsonrpc" in
  let method := get b "method" in
  let params := or_empty (get b "params") in
  let id := get b "id" in
  if negb (is_str jsonrpc "2.0")
  then res_json 400 (invalid_request id)
  else
    session ←
      match req_session req with
      | Some s => mret (Some s)
      | None =>
          if is_str method "initialize" then
            let s := mkSession uuid None now now [] in
            emit (EvSessionSet s);;
            emit (EvSetHeader "x-session-id" (VStr uuid));;
            mret (Some s)
          else mret None
      end;
    should ← shouldStream method (user_agent req);
    let streaming :=
      should && match accept req with
                | Some a => includes a "text/event-stream"
                | None => false
                end in
    (if streaming then
       emit (EvWriteHead 200 (sse_headers session));;
       sendSSE (streaming_started id session);;
       emit EvHeartbeat
     else mret tt);;
    dispatch streaming method id params session.

(** The outer [catch]. *)
Definition post_catch (req : request) (e : exn) : M unit :=
  b ← req_body req;
  let errorResponse :=
    rpc_error (js_or (get b "id") VNull)
      (VObj [("code", VNum (-32603)); ("message", error_message e)]) in
  sent ← headersSent;
  if (sent : bool) then sendSSE errorResponse;; res_end 200
  else res_json 500 errorResponse.

Definition post (uuid : string) (now : Z) (req : request) : M unit :=
  try_catch (post_try uuid now req) (post_catch req).

(** The events a POST produces on a fresh response object. *)
Definition post_trace (uuid : string) (now : Z) (req : request)
    : list event :=
  fst (run (post uuid now req)).

(** *** The middleware stack in front of the handler *)

Record App : Type := mkApp {
  rateLimitStore : gmap string RateLimitEntry;
  metrics : Metrics;
  sessionStore : gmap string Session
}.

(** A POST to [/] as the stack sees it.  [payload] is [req.body] once
    [express.json()] has run, or the stack trace of the error it
    passes to [next] when the body does not parse.  [at] is the clock
    while the request is handled, [took] the time until the body is
    written and [fresh] what [randomUUID()] would return. *)
Record http_request : Type := mkHttp {
  ip : option string;
  x_forwarded_for : option string;
  x_api_key : option string;
  authorization : option string;
  x_session_id : option string;
  h_user_agent : option string;
  h_accept : option string;
  payload : string + value;
  at_time : Z;
  took : Z;
  fresh : string
}.

Definition set_headers (headers : list (string * value)) : list event :=
  map (λ h, EvSetHeader (fst h) (snd h)) headers.

(** The wrapped [res.json] sees every JSON body of the trace. *)
Definition record_events (elapsed : Z) (reqBody : value)
    (tr : list event) (m : Metrics) : Metrics :=
  fold_left
    (λ m ev,
       match ev with
       | EvJson status _ => record_json status elapsed reqBody m
       | _ => m
       end)
    tr m.

Definition apply_sessions (tr : list event)
    (sessions : gmap string Session) : gmap string Session :=
  fold_left
    (λ acc ev,
       match ev with
       | EvSessionSet s => <[sid s := s]> acc
       | _ => acc
       end)
    tr sessions.

(** [req.session] after the session middleware. *)
Definition session_of (sessionId : option string)
    (sessions : gmap string Session) : option Session :=
  match sessionId with
  | Some i => if String.eqb i "" then None else sessions !! i
  | None => None
  end.

(** One request through [express.json], [securityMiddleware],
    [rateLimitMiddleware], [metricsMiddleware], the session middleware
    and [app.post('/')]; an unparsable body goes straight to
    [errorHandlingMiddleware]. *)
Definition handle (app : App) (r : http_request) : App * list event :=
  match payload r with
  | inl stack =>
      (mkApp (rateLimitStore app) (count_unhandled (metrics app))
             (sessionStore app),
       [EvJson 500 (internal_server_error VUndefined NODE_ENV stack)])
  | inr b =>
      let id := get b "id" in
      match securityMiddleware NODE_ENV MCP_API_KEY
              (x_api_key r) (authorization r) id with
      | Reply status body =>
          (app, (set_headers hardening_headers ++ [EvJson status body])%list)
      | Next hardening =>
          let '(store, limited) :=
            rateLimitMiddleware NODE_ENV
              (client_id (ip r) (x_forwarded_for r)) (at_time r) id
              (rateLimitStore app) in
          match limited with
          | Reply status body =>
              (mkApp store (metrics app) (sessionStore app),
               (set_headers hardening ++ [EvJson status body])%list)
          | Next limits =>
              let m := metricsMiddleware (metrics app) in
              let sessions :=
                touch (x_session_id r) (at_time r) (sessionStore app) in
              let tr :=
                post_trace (fresh r) (at_time r)
                  (mkRequest (h_user_agent r) (h_accept r)
                     (session_of (x_session_id r) sessions) b) in
              (mkApp store (record_events (took r) b tr m)
                     (apply_sessions tr sessions),
               (set_headers hardening ++ set_headers limits ++ tr)%list)
          end
      end
  end.

(** Did the request reach [metricsMiddleware]? *)
Definition counted (app : App) (r : http_request) : bool :=
  match payload r with
  | inl _ => false
  | inr b =>
      match securityMiddleware NODE_ENV MCP_API_KEY
              (x_api_key r) (authorization r) (get b "id") with
      | Reply _ _ => false
      | Next _ =>
          match snd (rateLimitMiddleware NODE_ENV
                       (client_id (ip r) (x_forwarded_for r)) (at_time r)
                       (get b "id") (rateLimitStore app)) with
          | Reply _ _ => false
          | Next _ => true
          end
      end
  end.

(** A run of the server over a sequence of requests, with the
    response of each. *)
Fixpoint serve (app : App) (rs : list http_request)
    : App * list (list event) :=
  match rs with
  | [] => (app, [])
  | r :: rs' =>
      let '(app1, tr) := handle app r in
      let '(app2, trs) := serve app1 rs' in
      (app2, tr :: trs)
  end.

End Server.

(* ===================================================================== *)
(** ** The GET endpoints (streamable-http-server.ts) *)
(* ===================================================================== *)

Section Endpoints.

Context {ext : Externals}.

(** The welcome frame of [GET /]. *)
Definition welcome (sessionId : string) : value :=
  VObj [("type", VStr "welcome");
        ("sessionId", VStr sessionId);
        ("protocolVersion", VStr "2025-06-18");
        ("serverInfo",
          VObj [("name", VStr "frappe-mcp-server");
                ("version", VStr getVersion)])].

Definition sse_connection_headers (sessionId : string)
    : list (string * value) :=
  [("Content-Type", VStr "text/event-stream");
   ("Cache-Control", VStr "no-cache");
   ("Connection", VStr "keep-alive");
   ("Access-Control-Allow-Origin", VStr "*");
   ("Access-Control-Allow-Headers",
     VStr "Cache-Control, Content-Type, Accept, mcp-protocol-version");
   ("Access-Control-Allow-Methods", VStr "GET, POST, OPTIONS");
   ("x-session-id", VStr sessionId)].

(** [app.get('/')]: a session is stored under the id [randomUUID()]
    returned, the session metrics are set to the size of the store, and
    the stream is opened with the welcome frame and a heartbeat. *)
Definition sse_open (sessionId : string) (now : Z)
    (sessions : gmap string Session) (m : Metrics)
    : gmap string Session * Metrics * list event :=
  let session := mkSession sessionId None now now [] in
  let sessions := <[sessionId := session]> sessions in
  let size := Z.of_nat (size sessions) in
  (sessions, updateSessionMetrics size size m,
   [EvWriteHead 200 (sse_connection_headers sessionId);
    EvSSE (welcome sessionId);
    EvHeartbeat]).


(** [Object.entries(toolCategories).reduce(...)]: the number of names
    listed under each category. *)
Definition byCategory : value :=
  VObj (map (λ c, (fst c, VNum (Z.of_nat (length (snd c))))) categorizeTools).

(** [!!process.env.MCP_API_KEY]. *)
Definition authentication_enabled : bool :=
  match MCP_API_KEY with
  | Some k => negb (String.eqb k "")
  | None => false
  end.

(** The body of [GET /info]. *)
Definition info : value :=
  VObj [("name", VStr "frappe-mcp-server");
        ("version", VStr getVersion);
        ("transport", VStr "streamable-http");
        ("protocol", VStr "2025-06-18");
        ("capabilities",
          VObj [("streaming", VBool true);
                ("stateful", VBool true);
                ("rateLimit",
                  VBool (bool_decide (NODE_ENV = Some "production")));
                ("authentication", VBool authentication_enabled)]);
        ("tools",
          VObj [("total", VNum (Z.of_nat (length tool_names)));
                ("byCategory", byCategory)]);
        ("categories", VObj getToolCategories);
        ("endpoints",
          VObj [("mcp", VStr "/"); ("health", VStr "/health");
                ("info", VStr "/info"); ("metrics", VStr "/metrics");
                ("tools", VStr "/tools"); ("resources", VStr "/resources");
                ("prompts", VStr "/prompts")])].

(** One element of [toolsWithDetails] in [GET /tools]. *)
Definition tool_details (entry : string * tool) : value :=
  let category := category_of categorizeTools (fst entry) in
  VObj [("name", VStr (fst entry));
        ("description", VStr (description (snd entry)));
        ("category", VStr category);
        ("categoryInfo",
          default VUndefined (assoc category getToolCategories));
        ("inputSchema", zodToJsonSchema (schema (snd entry)))].

(** The body of [GET /tools]. *)
Definition tools_endpoint : value :=
  let toolsWithDetails := map tool_details tools in
  VObj [("tools", VArr toolsWithDetails);
        ("categories", VObj getToolCategories);
        ("summary",
          VObj [("total", VNum (Z.of_nat (length toolsWithDetails)));
                ("byCategory", byCategory)])].

(** The body of [GET /health]. *)
Definition health (sessions : gmap string Session) : value :=
  VObj [("status", VStr "healthy");
        ("server", VStr "frappe-mcp-server");
        ("version", VStr getVersion);
        ("transport", VStr "streamable-http");
        ("sessions", VNum (Z.of_nat (size sessions)))].

End Endpoints.

(* ===================================================================== *)
(** ** Observations on runs *)
(* ===================================================================== *)

(** Structural equality of values. *)
Fixpoint value_eqb (a b : value) : bool :=
  match a, b with
  | VUndefined, VUndefined => true
  | VNull, VNull => true
  | VBool x, VBool y => Bool.eqb x y
  | VNum x, VNum y => (x =? y)%Z
  | VStr x, VStr y => String.eqb x y
  | VArr xs, VArr ys =>
      (fix all2 (l1 l2 : list value) : bool :=
         match l1, l2 with
         | [], [] => true
         | x :: l1', y :: l2' => value_eqb x y && all2 l1' l2'
         | _, _ => false
         end) xs ys
  | VObj fs, VObj gs =>
      (fix all2 (l1 l2 : list (string * value)) : bool :=
         match l1, l2 with
         | [], [] => true
         | (k, x) :: l1', (k', y) :: l2' =>
             String.eqb k k' && value_eqb x y && all2 l1' l2'
         | _, _ => false
         end) fs gs
  | _, _ => false
  end.

Definition has_field (v : value) (k : string) : bool :=
  match v with
  | VObj fields => match assoc k fields with Some _ => true | None => false end
  | _ => false
  end.

(** A JSON-RPC response object: it has a [result] or an [error]. *)
Definition is_response (v : value) : bool :=
  has_field v "result" || has_field v "error".

(** Events that finish the HTTP response. *)
Definition is_completion (ev : event) : bool :=
  match ev with
  | EvJson _ _ | EvEnd _ => true
  | _ => false
  end.

Definition completions (tr : list event) : nat :=
  length (List.filter is_completion tr).





(** Was the response streamed? *)
Definition streamed (tr : list event) : bool :=
  existsb (λ ev, match ev with EvWriteHead _ _ => true | _ => false end) tr.

(** The handler invocations of a trace. *)
Definition calls (tr : list event) : list (string * value) :=
  omap (λ ev, match ev with EvCall t a => Some (t, a) | _ => None end) tr.

(** The JSON-RPC payload a trace delivers: its last JSON body or data
    frame. *)
Definition final_payload (tr : list event) : option value :=
  last (omap (λ ev,
                match ev with
                | EvJson _ b => Some b
                | EvSSE d => Some d
                | _ => None
                end) tr).

Definition error_code (payload : option value) : value :=
  match payload with
  | Some p => get (get p "error") "code"
  | None => VUndefined
  end.

Definition error_data (payload : option value) : value :=
  match payload with
  | Some p => get (get p "error") "data"
  | None => VUndefined
  end.

(** Events that write nothing to the client. *)
Definition is_silent (ev : event) : bool :=
  match ev with
  | EvSetHeader _ _ | EvSessionSet _ | EvCall _ _ => true
  | _ => false
  end.



(** *** The stages of a POST

    The session a POST works with, the events of creating it, the
    outcome of the negotiation and the events that open a stream. *)
Definition creates_session (req : request) : bool :=
  match req_session req with
  | Some _ => false
  | None => is_str (get (body req) "method") "initialize"
  end.

Definition session_in_use (uuid : string) (now : Z) (req : request)
    : option Session :=
  match req_session req with
  | Some s => Some s
  | None =>
      if creates_session req then Some (mkSession uuid None now now [])
      else None
  end.

Definition session_events (uuid : string) (now : Z) (req : request)
    : list event :=
  if creates_session req
  then [EvSessionSet (mkSession uuid None now now []);
        EvSetHeader "x-session-id" (VStr uuid)]
  else [].

(** The request asks for a stream and may have one: no Cursor agent, a
    string method with a streamable prefix, and an [Accept] header that
    includes the event-stream type. *)
Definition negotiates (req : request) : bool :=
  negb (match user_agent req with
        | Some ua => includes ua "Cursor"
        | None => false
        end)
  && match get (body req) "method" with
     | VStr m => existsb (λ p, String.prefix p m) streamableMethods
     | _ => false
     end
  && match accept req with
     | Some a => includes a "text/event-stream"
     | None => false
     end.

Definition stream_opening (id : value) (session : option Session)
    : list event :=
  [EvWriteHead 200 (sse_headers session);
   EvSSE (streaming_started id session);
   EvHeartbeat].

(** The HTTP status a JSON body is sent with, against its JSON-RPC
    content: 200 carries a result; 400 the codes -32600 and -32602; 404
    the code -32601; 500 the codes -32602 and -32603. *)
Definition status_fits (status : Z) (b : value) : Prop :=
  get b "jsonrpc" = VStr "2.0" ∧
  ((status = 200 ∧ has_field b "result" = true ∧ has_field b "error" = false)
   ∨ (has_field b "error" = true ∧ has_field b "result" = false ∧
      ((status = 400 ∧ (get (get b "error") "code" = VNum (-32600)
                        ∨ get (get b "error") "code" = VNum (-32602)))
       ∨ (status = 404 ∧ get (get b "error") "code" = VNum (-32601))
       ∨ (status = 500 ∧ (get (get b "error") "code" = VNum (-32602)
                          ∨ get (get b "error") "code" = VNum (-32603)))))).

Definition body_fits (ev : event) : Prop :=
  match ev with
  | EvJson status b => status_fits status b
  | _ => True
  end.

(** *** Rate limiting over a sequence of requests *)

Record hit : Type := mkHit {
  who : string;
  when : Z;
  rid : value
}.

(** Requests of any clients against the production rate limiter, in
    arrival order, each with the stage's answer. *)
Fixpoint rate_run (hits : list hit) (store : gmap string RateLimitEntry)
    : gmap string RateLimitEntry * list (string * stage) :=
  match hits with
  | [] => (store, [])
  | h :: hits' =>
      let '(store1, answer) :=
        rateLimitMiddleware (Some "production") (who h) (when h) (rid h)
          store in
      let '(store2, answers) := rate_run hits' store1 in
      (store2, (who h, answer) :: answers)
  end.

(** The answers given to one client. *)
Definition answers_to (client : string) (answers : list (string * stage))
    : list stage :=
  map snd (List.filter (λ a, String.eqb (fst a) client) answers).

Definition passes (s : stage) : Prop :=
  match s with
  | Next _ => True
  | Reply _ _ => False
  end.

(** A rejection by the rate limiter: 429, code -32000 and a
    [retryAfter] of at most the window in seconds. *)
Definition rate_limited (s : stage) : Prop :=
  match s with
  | Reply status b =>
      status = 429 ∧
      get (get b "error") "code" = VNum (-32000) ∧
      ∃ retryAfter,
        get (get (get b "error") "data") "retryAfter" = VNum retryAfter ∧
        (0 ≤ retryAfter ≤ RATE_LIMIT_WINDOW / 1000)%Z
  | Next _ => False
  end.

(** *** Metrics over a run *)




Definition initial_app (start : Z) : App :=
  mkApp ∅ (initial_metrics start) ∅.

(** *** An example world

    A small validator for the Zod classes of the registry and fixed
    answers for the collaborators, to run the server on examples. *)
Fixpoint zod_accepts (z : zod) (v : value) : bool :=
  match z with
  | ZObject shape =>
      match v with
      | VObj fields =>
          forallb
            (λ kv, zod_accepts (snd kv)
                     (default VUndefined (assoc (fst kv) fields)))
            shape
      | _ => false
      end
  | ZString _ => match v with VStr _ => true | _ => false end
  | ZNumber _ => match v with VNum _ => true | _ => false end
  | ZBoolean _ => match v with VBool _ => true | _ => false end
  | ZArray element _ =>
      match v with
      | VArr xs => forallb (zod_accepts element) xs
      | _ => false
      end
  | ZEnum options _ =>
      match v with
      | VStr s => includes_name options s
      | _ => false
      end
  | ZRecord valueType _ =>
      match v with
      | VObj fields =>
          match valueType with
          | Some vt => forallb (λ kv, zod_accepts vt (snd kv)) fields
          | None => true
          end
      | _ => false
      end
  | ZOptional inner =>
      match v with
      | VUndefined => true
      | _ => zod_accepts inner v
      end
  | ZUnion options => existsb (λ o, zod_accepts o v) options
  | ZAny => true
  | ZOther acceptsUndefined =>
      match v with
      | VUndefined => acceptsUndefined
      | _ => true
      end
  end.

Definition example_issues : value :=
  VArr [VObj [("code", VStr "invalid_type"); ("path", VArr []);
              ("message", VStr "Required")]].

Definition example_world : Externals := {|
  zparse z v :=
    if zod_accepts z v then inr v else inl (example_issues, "Required");
  backend name args := inr (text_content ("called " ++ name));
  packageVersion := Some "0.6.0";
  NODE_ENV := Some "production";
  MCP_API_KEY := None;
  resources_listing := inr [];
  resource_lookup uri :=
    inr (VObj [("uri", uri); ("text", VStr "# Guide");
               ("mimeType", VStr "text/markdown")]);
  generate name args := inl (JsError "connect ECONNREFUSED 127.0.0.1:8000")
|}.

Definition rpc_request (id : value) (method : string) (params : value)
    : value :=
  VObj [("jsonrpc", VStr "2.0"); ("id", id); ("method", VStr method);
        ("params", params)].

(** Example requests. *)
Definition streamed_read : request :=
  mkRequest None (Some "text/event-stream") None
    (rpc_request (VNum 1) "resources/read"
       (VObj [("uri", VStr "frappe://docs/api")])).

Definition rejected_call : request :=
  mkRequest None None None
    (rpc_request (VNum 2) "tools/call"
       (VObj [("name", VStr "check_doctype_exists");
              ("arguments", VObj [("doctype", VNum 5)])])).

Definition ping_call : value :=
  rpc_request (VNum 3) "tools/call" (VObj [("name", VStr "ping")]).

Definition known_prompt : request :=
  mkRequest None None None
    (rpc_request (VNum 4) "prompts/get"
       (VObj [("name", VStr "analyze_doctype");
              ("arguments", VObj [("doctype_name", VStr "Customer")])])).




Definition malformed_post : http_request :=
  mkHttp (Some "10.0.0.7") None None None None None None
    (inl "SyntaxError: Unexpected end of JSON input") 2000 1 "s-2".

(** *** Statements of the specification that fail, as they are worded *)



(** The methods [shouldStream] can test: strings, and [null] or
    [undefined] by way of the optional call. *)
Definition testable (method : value) : bool :=
  match method with
  | VStr _ | VUndefined | VNull => true
  | _ => false
  end.

Definition from_cursor (req : request) : bool :=
  match user_agent req with
  | Some ua => includes ua "Cursor"
  | None => false
  end.

(** The [id] and the [result] of a delivered payload. *)
Definition payload_id (payload : option value) : value :=
  match payload with
  | Some p => get p "id"
  | None => VUndefined
  end.

Definition payload_result (payload : option value) : value :=
  match payload with
  | Some p => get p "result"
  | None => VUndefined
  end.

Definition error_message_of (payload : option value) : value :=
  match payload with
  | Some p => get (get p "error") "message"
  | None => VUndefined
  end.


(** A computation that keeps the status table: started on a trace
    whose JSON bodies fit their status, it leaves such a trace. *)
Definition keeps_table {A : Type} (m : M A) : Prop :=
  ∀ tr0, Forall body_fits tr0 → Forall body_fits (fst (m tr0)).

(** The sessions a sweep at [now] leaves, and those it removes. *)
Definition live_sessions (now : Z) (sessions : gmap string Session)
    : gmap string Session :=
  filter (λ kv, expired now (snd kv) = false) sessions.

Definition expired_sessions (now : Z) (sessions : gmap string Session)
    : gmap string Session :=
  filter (λ kv, expired now (snd kv) = true) sessions.

(** The rate-limit windows that are still open at [now]. *)
Definition open_windows (now : Z) (store : gmap string RateLimitEntry)
    : gmap string RateLimitEntry :=
  filter (λ kv, (resetTime (snd kv) <? now)%Z = false) store.

(** A computation that adds only events of kind [P] to the trace. *)
Definition adds {A : Type} (P : event → Prop) (m : M A) : Prop :=
  ∀ tr0, ∃ added,
    fst (m tr0) = (tr0 ++ added)%list ∧ Forall P added.


Definition keeps_sessions (ev : event) : Prop :=
  match ev with
  | EvSessionSet _ => False
  | _ => True
  end.

(** The request the POST handler sees after the session middleware. *)
Definition handled_request (app : App) (r : http_request) (b : value)
    : request :=
  mkRequest (h_user_agent r) (h_accept r)
    (session_of (x_session_id r)
       (touch (x_session_id r) (at_time r) (sessionStore app)))
    b.


(** The stage turns the request away. *)
Definition rejects (s : stage) : Prop :=
  match s with
  | Reply _ _ => True
  | Next _ => False
  end.

(** [avgResponseTime] is the mean of the recorded response times, once
    there is one. *)
Definition average_consistent (m : Metrics) : Prop :=
  match responseTimeHistory (performance m) with
  | [] => True
  | history => (avgResponseTime (performance m) == mean history)%Q
  end.

(** The names [prompts/list] announces. *)
Definition listed_prompts : list value :=
  map (λ p, get p "name") prompts.

(** The numbers under [byCategory]. *)
Definition category_counts (v : value) : list Z :=
  match v with
  | VObj fields =>
      omap (λ kv, match snd kv with VNum n => Some n | _ => None end) fields
  | _ => []
  end.

(** *** A second example world and more example requests

    A development server with a configured key, whose back end and
    resource providers fail and whose prompt generators answer. *)
Definition example_prompt : value :=
  VObj [("description", VStr "DocType analysis");
        ("messages",
          VArr [VObj [("role", VStr "user");
                      ("content",
                        VObj [("type", VStr "text");
                              ("text", VStr "Analyze Customer")])]])].

Definition development_world : Externals := {|
  zparse z v :=
    if zod_accepts z v then inr v else inl (example_issues, "Required");
  backend name args := inl (JsError "connect ECONNREFUSED 127.0.0.1:8000");
  packageVersion := None;
  NODE_ENV := Some "development";
  MCP_API_KEY := Some "secret";
  resources_listing := inl (JsError "ENOENT: no such file or directory");
  resource_lookup uri := inl (JsError "ENOENT: no such file or directory");
  generate name args := inr example_prompt
|}.

Definition bad_envelope : request :=
  mkRequest None (Some "text/event-stream") None
    (VObj [("jsonrpc", VStr "1.0"); ("id", VNum 9);
           ("method", VStr "resources/read")]).

Definition initialize_call : request :=
  mkRequest None None None (rpc_request (VNum 1) "initialize" VUndefined).

Definition module_list_call : request :=
  mkRequest None None None
    (rpc_request (VNum 5) "tools/call"
       (VObj [("name", VStr "get_module_list")])).

Definition resources_list_call : request :=
  mkRequest None None None (rpc_request (VNum 8) "resources/list" VUndefined).

Definition prompts_run_call : request :=
  mkRequest None (Some "application/json, text/event-stream") None
    (rpc_request (VNum 6) "prompts/run" (VObj [("name", VStr "daily")])).

Definition ping_post : http_request :=
  mkHttp (Some "10.0.0.7") None None None None None None
    (inr ping_call) 1000 3 "s-3".

Definition initialize_post : http_request :=
  mkHttp (Some "10.0.0.7") None None None None None None
    (inr (rpc_request (VNum 1) "initialize" VUndefined)) 1000 4 "s-1".

Definition ping_in_session : http_request :=
  mkHttp (Some "10.0.0.7") None None None (Some "s-1") None None
    (inr ping_call) 2000 3 "s-4".

Definition unknown_tool_post : http_request :=
  mkHttp (Some "10.0.0.7") None None None None None None
    (inr (rpc_request (VNum 11) "tools/call"
            (VObj [("name", VStr "no_such_tool")])))
    3000 2 "s-5".

(** A server whose client has used up its window. *)
Definition exhausted_app : App :=
  mkApp {[ "10.0.0.7" := mkEntry 100 61000 ]} (initial_metrics 0) ∅.



(** *** Outcomes of a branch of the handler

    What a branch of the switch does to the trace [tr0] it starts from.
    Buffered: one JSON body after silent events, one empty 204, or an
    exception before anything is written.  Streamed: one response frame
    for the request and [res.end()], or an exception before anything is
    written. *)
Inductive buffered_outcome (tr0 : list event)
    : list event * (exn + unit) → Prop :=
| bo_body mid status b :
    Forall (λ ev, is_silent ev = true) mid →
    buffered_outcome tr0 ((tr0 ++ mid ++ [EvJson status b])%list, inr tt)
| bo_empty :
    buffered_outcome tr0 ((tr0 ++ [EvEnd 204])%list, inr tt)
| bo_throw e :
    buffered_outcome tr0 (tr0, inl e).

Inductive streamed_outcome (id : value) (tr0 : list event)
    : list event * (exn + unit) → Prop :=
| so_frame frame :
    is_response frame = true →
    get frame "id" = id →
    streamed_outcome id tr0 ((tr0 ++ [EvSSE frame; EvEnd 200])%list, inr tt)
| so_throw e :
    streamed_outcome id tr0 (tr0, inl e).

(** Unfold the operations of [M]. *)
Ltac mred :=
  cbv [mbind M_bind mret M_ret emit throw try_catch await headersSent
       res_json res_end sendSSE reply run].

(** Case analysis on an innermost [match] of the goal. *)
Ltac case_inner :=
  match goal with
  | |- context [match ?x with _ => _ end] =>
      lazymatch x with
      | context [match _ with _ => _ end] => fail
      | _ => destruct x eqn:?
      end
  end.

(** Run a branch symbolically from a trace whose headers are not sent
    ([Hq]). *)
Ltac crunch Hq :=
  repeat first
    [ rewrite Hq
    | rewrite existsb_app
    | progress simpl
    | case_inner ].

Ltac finish_buffered :=
  first
    [ apply bo_throw
    | apply bo_empty
    | apply (bo_body _ []); constructor
    | rewrite <- app_assoc; apply (bo_body _ [_]); repeat constructor ].

(* ===================================================================== *)
(** ** Properties of the schema generator *)
(* ===================================================================== *)





(** What [tools/list] publishes as a tool's [inputSchema] is the
    generated schema of its validator. *)
Lemma tool_entry_inputSchema (entry : string * tool) :
  get (tool_entry entry) "inputSchema" = zodToJsonSchema (schema (snd entry)).
Proof. reflexivity. Qed.



Section Registry.

Context {ext : Externals}.

Lemma registry_size : length tools = 28%nat.
Proof. reflexivity. Qed.

Lemma registry_names_distinct : List.NoDup tool_names.
Proof.
  unfold tool_names. simpl.
  repeat (constructor; [simpl; intuition discriminate|]). constructor.
Qed.

(** Every registry entry validates with an object schema whose keys
    are distinct. *)
Lemma registry_schemas :
  Forall
    (λ entry, ∃ shape, schema (snd entry) = ZObject shape
                       ∧ List.NoDup (map fst shape))
    tools.
Proof.
  unfold tools, remote.
  repeat (constructor;
          [eexists; split; [reflexivity|];
           repeat (constructor; [simpl; intuition discriminate|]);
           constructor|]).
  constructor.
Qed.

Lemma tools_list_total :
  get tools_list_result "totalTools" = VNum 28.
Proof. reflexivity. Qed.
End Registry.

(* ===================================================================== *)
(** ** Properties of the session sweep *)
(* ===================================================================== *)

Section Sweep.

Variable now : Z.

(** The loop only deletes: an id absent from the map stays absent. *)
Lemma sweep_loop_absent (entries : list (string * Session))
    (acc : gmap string Session) (n : Z) (i : string) :
  acc !! i = None →
  fst (fold_left (sweep_step now) entries (acc, n)) !! i = None.
Proof.
  revert acc n. induction entries as [|[k s] entries IH]; intros acc n Hi.
  - done.
  - simpl. unfold sweep_step at 2. simpl.
    destruct (expired now s); [|by apply IH].
    apply IH. destruct (decide (k = i)) as [->|Hne].
    + apply lookup_delete_eq.
    + by rewrite lookup_delete_ne.
Qed.

(** An entry of the loop that is past the timeout is gone afterwards. *)
Lemma sweep_loop_removes (entries : list (string * Session))
    (acc : gmap string Session) (n : Z) (i : string) (s : Session) :
  In (i, s) entries →
  expired now s = true →
  fst (fold_left (sweep_step now) entries (acc, n)) !! i = None.
Proof.
  revert acc n. induction entries as [|[k s'] entries IH];
    intros acc n Hin Hexp; [done|].
  simpl. unfold sweep_step at 2. simpl. destruct Hin as [Heq|Hin].
  - inversion Heq; subst. rewrite Hexp.
    apply sweep_loop_absent, lookup_delete_eq.
  - destruct (expired now s'); by apply IH.
Qed.

(** An id none of whose entries is past the timeout is left alone. *)
Lemma sweep_loop_keeps (entries : list (string * Session))
    (acc : gmap string Session) (n : Z) (i : string) :
  (∀ s, In (i, s) entries → expired now s = false) →
  fst (fold_left (sweep_step now) entries (acc, n)) !! i = acc !! i.
Proof.
  revert acc n. induction entries as [|[k s'] entries IH];
    intros acc n Hall; [done|].
  simpl. unfold sweep_step at 2. simpl.
  destruct (expired now s') eqn:Hexp.
  - rewrite IH by (intros; apply Hall; by right).
    apply lookup_delete_ne. intros ->.
    rewrite (Hall s') in Hexp by (by left). done.
  - apply IH. intros; apply Hall; by right.
Qed.

Lemma sweep_lookup (sessions : gmap string Session) (i : string) :
  fst (sweep now sessions) !! i
  = match sessions !! i with
    | Some s => if expired now s then None else Some s
    | None => None
    end.
Proof.
  unfold sweep. destruct (sessions !! i) as [s|] eqn:Hi.
  - destruct (expired now s) eqn:Hexp.
    + apply (sweep_loop_removes _ _ _ i s); [|done].
      apply list_elem_of_In. by apply elem_of_map_to_list.
    + rewrite sweep_loop_keeps; [done|].
      intros s' Hin. apply list_elem_of_In, elem_of_map_to_list in Hin.
      congruence.
  - by apply sweep_loop_absent.
Qed.

(** [removedCount] is the number of entries the loop deleted. *)
Lemma sweep_loop_count (entries : list (string * Session)) :
  ∀ (acc : gmap string Session) (n : Z),
    NoDup (entries.*1) →
    (∀ k s, (k, s) ∈ entries → acc !! k = Some s) →
    snd (fold_left (sweep_step now) entries (acc, n)) - n
    = Z.of_nat (size acc)
      - Z.of_nat (size (fst (fold_left (sweep_step now) entries (acc, n)))).
Proof.
  induction entries as [|[k s] entries IH]; intros acc n Hnd Hin; simpl.
  - lia.
  - rewrite fmap_cons in Hnd. apply NoDup_cons in Hnd as [Hk Hnd].
    unfold sweep_step at 2 4. simpl.
    destruct (expired now s).
    + assert (acc !! k = Some s) as Hs by (apply Hin; by left).
      pose proof (map_size_delete_Some k acc (mk_is_Some _ _ Hs)) as Hsz.
      assert (∀ k' s', (k', s') ∈ entries → delete k acc !! k' = Some s')
        as Hin'.
      { intros k' s' Hks. rewrite lookup_delete_ne.
        - apply Hin. by right.
        - intros ->. apply Hk. apply list_elem_of_fmap.
          by exists (k', s'). }
      pose proof (IH (delete k acc) (n + 1) Hnd Hin') as Hrest.
      pose proof (map_size_ne_0_lookup_2 acc k (mk_is_Some _ _ Hs)).
      lia.
    + apply IH; [done|]. intros k' s' Hin'. apply Hin. by right.
Qed.

Lemma sweep_removedCount (sessions : gmap string Session) :
  snd (sweep now sessions)
  = Z.of_nat (size sessions) - Z.of_nat (size (fst (sweep now sessions))).
Proof.
  unfold sweep.
  rewrite <- (sweep_loop_count (map_to_list sessions) sessions 0).
  - lia.
  - apply NoDup_fst_map_to_list.
  - intros k s. apply elem_of_map_to_list.
Qed.
(** What the sweep reports to the metrics: the live count, and the count
    before the sweep as the total. *)
Lemma sweep_metrics_totals (sessions : gmap string Session) :
  sweep_metrics now sessions
  = (Z.of_nat (size (fst (sweep now sessions))), Z.of_nat (size sessions)).
Proof.
  unfold sweep_metrics. pose proof (sweep_removedCount sessions) as Hcount.
  destruct (sweep now sessions) as [live removedCount]. simpl in *.
  f_equal. lia.
Qed.

End Sweep.

Lemma touch_lookup (i : string) (t : Z) (sessions : gmap string Session)
    (s : Session) :
  i ≠ "" →
  sessions !! i = Some s →
  touch (Some i) t sessions !! i
  = Some (mkSession (sid s) (clientId s) (createdAt s) t (messageQueue s)).
Proof.
  intros Hne Hi. unfold touch.
  destruct (String.eqb_spec i "") as [->|_]; [done|].
  rewrite Hi. apply lookup_insert_eq.
Qed.

(** C6.  A sweep tick at time [now] keeps a session whose last activity
    is at most 30 minutes old and removes one whose last activity is
    older; the age is read from the session as it is in the map at the
    tick, so a session touched since (by a request bearing its id) is
    judged by the time of that touch. *)
Theorem sweep_timeout (sessions : gmap string Session) (i : string)
    (s : Session) (now : Z) :
  sessions !! i = Some s →
  (now - lastActivity s ≤ 30 * 60 * 1000 →
     fst (sweep now sessions) !! i = Some s) ∧
  (30 * 60 * 1000 < now - lastActivity s →
     fst (sweep now sessions) !! i = None) ∧
  (∀ t, i ≠ "" → now - t ≤ 30 * 60 * 1000 →
     ∃ s', fst (sweep now (touch (Some i) t sessions)) !! i = Some s'
           ∧ lastActivity s' = t ∧ sid s' = sid s).
Proof.
  intros Hi. repeat split.
  - intros Hfresh. rewrite sweep_lookup, Hi.
    unfold expired, SESSION_TIMEOUT.
    by destruct (Z.ltb_spec (30 * 60 * 1000) (now - lastActivity s));
      [lia|].
  - intros Hold. rewrite sweep_lookup, Hi.
    unfold expired, SESSION_TIMEOUT.
    by destruct (Z.ltb_spec (30 * 60 * 1000) (now - lastActivity s));
      [|lia].
  - intros t Hne Hfresh. eexists.
    rewrite sweep_lookup, (touch_lookup i t sessions s Hne Hi).
    unfold expired, SESSION_TIMEOUT. simpl lastActivity.
    destruct (Z.ltb_spec (30 * 60 * 1000) (now - t)); [lia|]. done.
Qed.

Lemma sweep_timeout_witness :
  let s := mkSession "a1" None 0 1000 [] in
  let sessions : gmap string Session := {["a1" := s]} in
  (1801000 - lastActivity s ≤ 30 * 60 * 1000 →
     fst (sweep 1801000 sessions) !! "a1" = Some s) ∧
  (30 * 60 * 1000 < 1801000 - lastActivity s →
     fst (sweep 1801000 sessions) !! "a1" = None) ∧
  (∀ t, "a1" ≠ "" → 1801000 - t ≤ 30 * 60 * 1000 →
     ∃ s', fst (sweep 1801000 (touch (Some "a1") t sessions)) !! "a1"
           = Some s'
           ∧ lastActivity s' = t ∧ sid s' = sid s).
Proof.
  apply (sweep_timeout {["a1" := mkSession "a1" None 0 1000 []]} "a1").
  apply lookup_singleton_eq.
Defined.

(* ===================================================================== *)
(** ** Properties of the rate limiter *)
(* ===================================================================== *)

Section RateLimit.

Variable c : string.

(** A client without a live window opens one and is counted once. *)
Lemma rate_limit_opens (now : Z) (id : value)
    (store : gmap string RateLimitEntry) :
  (∀ e, store !! c = Some e → resetTime e < now) →
  ∃ headers,
    rateLimitMiddleware (Some "production") c now id store
    = (<[c := mkEntry 1 (now + RATE_LIMIT_WINDOW)]> store, Next headers).
Proof.
  intros Hdead. unfold rateLimitMiddleware. simpl.
  destruct (store !! c) as [e|] eqn:He.
  - specialize (Hdead e eq_refl).
    destruct (Z.ltb_spec (resetTime e) now); [|lia]. simpl. eauto.
  - simpl. eauto.
Qed.

(** Inside a live window the counter goes up by one and the request
    passes exactly while the counter stays within the ceiling. *)
Lemma rate_limit_counts (now n r : Z) (id : value)
    (store : gmap string RateLimitEntry) :
  store !! c = Some (mkEntry n r) →
  now ≤ r →
  ∃ answer,
    rateLimitMiddleware (Some "production") c now id store
    = (<[c := mkEntry (n + 1) r]> store, answer) ∧
    (n < RATE_LIMIT_MAX_REQUESTS → passes answer) ∧
    (RATE_LIMIT_MAX_REQUESTS ≤ n → r - RATE_LIMIT_WINDOW ≤ now →
       rate_limited answer).
Proof.
  intros He Hlive. unfold rateLimitMiddleware. simpl.
  rewrite He. simpl.
  destruct (Z.ltb_spec r now); [lia|]. simpl.
  destruct (Z.ltb_spec RATE_LIMIT_MAX_REQUESTS (n + 1)).
  - eexists. split; [done|]. split; [lia|].
    intros _ Hwindow. simpl. split; [done|]. split; [done|].
    eexists. split; [done|].
    unfold ceil_div_1000, RATE_LIMIT_WINDOW in *.
    assert (-60000 ≤ - (r - now) ≤ 0) as [Hlo Hhi] by lia.
    pose proof (Z.div_le_mono _ _ 1000 ltac:(lia) Hlo) as Hlo'.
    pose proof (Z.div_le_mono _ _ 1000 ltac:(lia) Hhi) as Hhi'.
    change (-60000 / 1000) with (-60) in Hlo'.
    change (0 / 1000) with 0 in Hhi'.
    change (60 * 1000 / 1000) with 60. lia.
  - eexists. split; [done|]. split; [done|]. lia.
Qed.

(** Requests of other clients leave this client's entry alone. *)
Lemma rate_limit_other (c' : string) (now : Z) (id : value)
    (store : gmap string RateLimitEntry) :
  c' ≠ c →
  fst (rateLimitMiddleware (Some "production") c' now id store) !! c = store !! c.
Proof.
  intros Hne. unfold rateLimitMiddleware. simpl.
  match goal with
  | |- context [if ?b then _ else _] => destruct b
  end; simpl; by rewrite lookup_insert_ne.
Qed.

Lemma answers_to_cons_same (a : stage) (answers : list (string * stage)) :
  answers_to c ((c, a) :: answers) = a :: answers_to c answers.
Proof. unfold answers_to. simpl. by rewrite String.eqb_refl. Qed.

Lemma answers_to_cons_other (c' : string) (a : stage)
    (answers : list (string * stage)) :
  c' ≠ c →
  answers_to c ((c', a) :: answers) = answers_to c answers.
Proof.
  intros Hne. unfold answers_to. simpl.
  by destruct (String.eqb_spec c' c).
Qed.

(** Within one window the [k]-th answer to the client is decided by
    the counter alone, whatever the other clients do in between. *)
Lemma rate_run_window (hits : list hit) :
  ∀ (store : gmap string RateLimitEntry) (n r : Z),
    store !! c = Some (mkEntry n r) →
    (∀ h, In h hits → who h = c →
          r - RATE_LIMIT_WINDOW ≤ when h ≤ r) →
    ∀ (k : nat) (answer : stage),
      answers_to c (snd (rate_run hits store)) !! k = Some answer →
      (n + Z.of_nat k < RATE_LIMIT_MAX_REQUESTS → passes answer) ∧
      (RATE_LIMIT_MAX_REQUESTS ≤ n + Z.of_nat k → rate_limited answer).
Proof.
  induction hits as [|h hits IH]; intros store n r He Hin k answer Hk.
  - done.
  - simpl in Hk.
    destruct (rateLimitMiddleware (Some "production") (who h) (when h)
                (rid h) store) as [store1 a] eqn:Hstep.
    destruct (rate_run hits store1) as [store2 answers] eqn:Hrun.
    simpl in Hk.
    destruct (decide (who h = c)) as [Hc|Hc].
    + rewrite Hc in *. rewrite answers_to_cons_same in Hk.
      destruct (Hin h (or_introl eq_refl) Hc) as [Hlo Hhi].
      destruct (rate_limit_counts (when h) n r (rid h) store He Hhi)
        as [a' [Hstep' [Hpass Hrej]]].
      rewrite Hstep in Hstep'.
      inversion Hstep'; subst a' store1.
      destruct k as [|k]; simpl in Hk.
      * inversion Hk; subst answer. split; intros; [apply Hpass|apply Hrej]; lia.
      * assert (answers = snd (rate_run hits (<[c:=mkEntry (n + 1) r]> store)))
          as -> by (by rewrite Hrun).
        destruct (IH _ (n + 1) r (lookup_insert_eq _ _ _)
                    (λ h' Hh', Hin h' (or_intror Hh')) k answer Hk)
          as [Hp Hr].
        split; intros; [apply Hp|apply Hr]; lia.
    + rewrite answers_to_cons_other in Hk by done.
      assert (store1 !! c = Some (mkEntry n r)) as He1.
      { replace store1 with
          (fst (rateLimitMiddleware (Some "production") (who h) (when h) (rid h)
                  store)) by (by rewrite Hstep).
        by rewrite rate_limit_other. }
      assert (answers = snd (rate_run hits store1)) as ->
        by (by rewrite Hrun).
      exact (IH _ n r He1 (λ h' Hh', Hin h' (or_intror Hh')) k answer Hk).
Qed.

End RateLimit.

Section RateSweep.

Variable now : Z.

Lemma rate_sweep_loop_live (entries : list (string * RateLimitEntry))
    (acc : gmap string RateLimitEntry) (c : string) :
  (∀ e, In (c, e) entries → now ≤ resetTime e) →
  fold_left
    (λ acc kv,
       if (resetTime (snd kv) <? now)%Z then delete (fst kv) acc else acc)
    entries acc !! c
  = acc !! c.
Proof.
  revert acc. induction entries as [|[k e] entries IH]; intros acc Hlive;
    [done|].
  simpl. rewrite IH by (intros; apply Hlive; by right).
  destruct (Z.ltb_spec (resetTime e) now) as [Hlt|]; [|done].
  apply lookup_delete_ne. intros ->.
  specialize (Hlive e (or_introl eq_refl)). lia.
Qed.

(** The clean-up timer leaves a live window in place. *)
Lemma rate_sweep_keeps_live (store : gmap string RateLimitEntry)
    (c : string) (e : RateLimitEntry) :
  store !! c = Some e →
  now ≤ resetTime e →
  rate_sweep now store !! c = Some e.
Proof.
  intros He Hlive. unfold rate_sweep.
  rewrite rate_sweep_loop_live; [done|].
  intros e' Hin. apply list_elem_of_In, elem_of_map_to_list in Hin.
  congruence.
Qed.
End RateSweep.

(** C7.  With rate limiting active (production), take a client whose
    request [first] opens a window, followed by any requests [rest] of
    any clients, those of this client falling inside the window.  The
    client's first [RATE_LIMIT_MAX_REQUESTS] requests pass; every later
    one in the window, the next one first, is answered 429 with code
    -32000 and a [retryAfter] of at most the window length in seconds.
    A request that arrives once the client's window has elapsed passes
    and leaves the client's counter at 1. *)
Theorem rate_limit_boundary (c : string) (store : gmap string RateLimitEntry)
    (first : hit) (rest : list hit) :
  who first = c →
  (∀ e, store !! c = Some e → resetTime e < when first) →
  (∀ h, In h rest → who h = c →
        when first ≤ when h ≤ when first + RATE_LIMIT_WINDOW) →
  let answers := answers_to c (snd (rate_run (first :: rest) store)) in
  (∀ (k : nat) answer, answers !! k = Some answer →
     Z.of_nat k < RATE_LIMIT_MAX_REQUESTS → passes answer) ∧
  (∀ (k : nat) answer, answers !! k = Some answer →
     RATE_LIMIT_MAX_REQUESTS ≤ Z.of_nat k → rate_limited answer) ∧
  (∀ store' e now id, store' !! c = Some e → resetTime e < now →
     passes (snd (rateLimitMiddleware (Some "production") c now id store'))
     ∧ count <$>
         fst (rateLimitMiddleware (Some "production") c now id store') !! c
       = Some 1).
Proof.
  intros Hwho Hdead Hrest answers.
  assert (∀ (k : nat) answer, answers !! k = Some answer →
            (Z.of_nat k < RATE_LIMIT_MAX_REQUESTS → passes answer) ∧
            (RATE_LIMIT_MAX_REQUESTS ≤ Z.of_nat k → rate_limited answer))
    as Hboth.
  { intros k answer Hk. unfold answers in Hk. simpl in Hk.
    rewrite Hwho in Hk.
    destruct (rate_limit_opens c (when first) (rid first) store Hdead)
      as [headers Hopen].
    rewrite Hopen in Hk.
    destruct (rate_run rest
                (<[c:=mkEntry 1 (when first + RATE_LIMIT_WINDOW)]> store))
      as [store2 more] eqn:Hrun.
    simpl in Hk. rewrite answers_to_cons_same in Hk.
    destruct k as [|k]; simpl in Hk.
    - inversion Hk; subst answer. split; [done|].
      unfold RATE_LIMIT_MAX_REQUESTS. lia.
    - assert (more = snd (rate_run rest
                (<[c:=mkEntry 1 (when first + RATE_LIMIT_WINDOW)]> store)))
        as -> by (by rewrite Hrun).
      destruct (rate_run_window c rest _ 1 (when first + RATE_LIMIT_WINDOW)
                  (lookup_insert_eq _ _ _)
                  (λ h Hh Hc, ltac:(specialize (Hrest h Hh Hc); lia))
                  k answer Hk) as [Hp Hr].
      split; intros; [apply Hp|apply Hr]; lia. }
  split; [|split].
  - intros k answer Hk. by apply Hboth.
  - intros k answer Hk. by apply Hboth.
  - intros store' e now id He Hlate.
    destruct (rate_limit_opens c now id store') as [headers ->].
    + intros e' He'. congruence.
    + simpl. split; [done|]. by rewrite lookup_insert_eq.
Qed.

Lemma rate_limit_boundary_witness :
  let c := "10.0.0.7" in
  let first := mkHit c 5000 (VNum 1) in
  let rest := [mkHit "10.0.0.9" 5500 VNull; mkHit c 6000 (VNum 2)] in
  let answers := answers_to c (snd (rate_run (first :: rest) ∅)) in
  (∀ (k : nat) answer, answers !! k = Some answer →
     Z.of_nat k < RATE_LIMIT_MAX_REQUESTS → passes answer) ∧
  (∀ (k : nat) answer, answers !! k = Some answer →
     RATE_LIMIT_MAX_REQUESTS ≤ Z.of_nat k → rate_limited answer) ∧
  (∀ store' e now id, store' !! c = Some e → resetTime e < now →
     passes (snd (rateLimitMiddleware (Some "production") c now id store'))
     ∧ count <$>
         fst (rateLimitMiddleware (Some "production") c now id store') !! c
       = Some 1).
Proof.
  apply (rate_limit_boundary "10.0.0.7" ∅ (mkHit "10.0.0.7" 5000 (VNum 1))
           [mkHit "10.0.0.9" 5500 VNull; mkHit "10.0.0.7" 6000 (VNum 2)]).
  - reflexivity.
  - intros e He. rewrite lookup_empty in He. discriminate.
  - intros h [<-|[<-|[]]] Hc; simpl in *.
    + discriminate.
    + unfold RATE_LIMIT_WINDOW. lia.
Defined.

(* ===================================================================== *)
(** ** Properties of the dispatcher *)
(* ===================================================================== *)

Lemma prefix_app (p m : string) :
  String.prefix p m = true → ∃ rest, m = (p ++ rest)%string.
Proof.
  revert m. induction p as [|a p IH]; intros m Hp.
  - by exists m.
  - destruct m as [|b m]; simpl in Hp; [done|].
    destruct (Ascii.ascii_dec a b) as [->|Hne]; [|done].
    destruct (IH m Hp) as [rest ->]. by exists rest.
Qed.

Section Dispatcher.

Context {ext : Externals}.

(** A method that may stream is [resources/read] or falls through to
    the default arm, and it is never [initialize]. *)
Lemma streamable_route (m : string) :
  existsb (λ p, String.prefix p m) streamableMethods = true →
  is_str (VStr m) "initialize" = false ∧
  (route_of (VStr m) = RResourcesRead ∨ route_of (VStr m) = RDefault).
Proof.
  unfold streamableMethods. simpl. rewrite orb_false_r.
  intros [Hp|Hp]%orb_true_iff; apply prefix_app in Hp as [rest ->];
    unfold route_of; simpl; [destruct rest|]; simpl; auto.
Qed.


Lemma quiet_silent (tr : list event) :
  Forall (λ ev, is_silent ev = true) tr → existsb sends_headers tr = false.
Proof.
  induction 1 as [|ev tr Hev _ IH]; [done|].
  simpl. rewrite IH. by destruct ev.
Qed.

(** Every branch of the switch, buffered. *)
Lemma dispatch_buffered (method id params : value)
    (session : option Session) (tr0 : list event) :
  existsb sends_headers tr0 = false →
  buffered_outcome tr0 (dispatch false method id params session tr0).
Proof.
  intros Hq. unfold dispatch. destruct (route_of method).
  - unfold case_initialize. mred. crunch Hq; finish_buffered.
  - unfold case_tools_list. mred. crunch Hq; finish_buffered.
  - unfold case_tools_call, destructure, has_tool. mred.
    crunch Hq; finish_buffered.
  - unfold case_resources_list, listResources. mred.
    crunch Hq; finish_buffered.
  - unfold case_resources_read, getResource, destructure. mred.
    crunch Hq; finish_buffered.
  - unfold case_prompts_list, listPrompts. mred.
    crunch Hq; finish_buffered.
  - unfold case_prompts_get, getPrompt, destructure. mred.
    crunch Hq; finish_buffered.
  - unfold case_notifications_initialized. mred. finish_buffered.
  - unfold case_notifications_message. mred. crunch Hq; finish_buffered.
  - unfold case_default. mred. crunch Hq; finish_buffered.
Qed.

(** The two branches a streamed request can reach. *)
Lemma dispatch_streamed (m : string) (id params : value)
    (session : option Session) (tr0 : list event) :
  existsb (λ p, String.prefix p m) streamableMethods = true →
  streamed_outcome id tr0 (dispatch true (VStr m) id params session tr0).
Proof.
  intros Hm. unfold dispatch.
  destruct (streamable_route m Hm) as [_ [-> | ->]].
  - unfold case_resources_read, getResource, destructure. mred.
    repeat (first [progress simpl | case_inner]);
      first [apply so_throw | rewrite <- app_assoc; by apply so_frame].
  - unfold case_default. mred. rewrite <- app_assoc. by apply so_frame.
Qed.





End Dispatcher.

(** *** One response per request *)


Lemma value_eqb_eq : ∀ a b, value_eqb a b = true → a = b.
Proof.
  fix IH 1. intros [| |x|x|x|xs|fs] [| |y|y|y|ys|gs]; simpl; try done.
  - intros Hb. f_equal. by apply Bool.eqb_prop.
  - intros Hb. f_equal. by apply Z.eqb_eq.
  - intros Hb. f_equal. by apply String.eqb_eq.
  - intros Hb. f_equal. revert ys Hb.
    induction xs as [|x xs IHxs]; intros [|y ys] Hb; try done.
    apply andb_true_iff in Hb as [Hx Hxs].
    f_equal; [by apply IH|by apply IHxs].
  - intros Hb. f_equal. revert gs Hb.
    induction fs as [|[k x] fs IHfs]; intros [|[k' y] gs] Hb; try done.
    apply andb_true_iff in Hb as [Hb Hfs].
    apply andb_true_iff in Hb as [Hk Hx].
    apply String.eqb_eq in Hk. subst k'.
    f_equal; [f_equal; by apply IH|by apply IHfs].
Qed.


Lemma silent_existsb (f : event → bool) (pre : list event) :
  (∀ ev, is_silent ev = true → f ev = false) →
  Forall (λ ev, is_silent ev = true) pre →
  existsb f pre = false.
Proof.
  intros Hf. induction 1 as [|ev pre Hev _ IH]; [done|].
  simpl. by rewrite (Hf ev Hev).
Qed.






(** *** The branches of the switch *)

Section Branches.

Context {ext : Externals}.

Lemma get_or_empty (p : value) (k : string) : get (or_empty p) k = get p k.
Proof. by destruct p. Qed.

Lemma is_str_eq (v : value) (s : string) : is_str v s = true → v = VStr s.
Proof.
  destruct v; simpl; try done. intros Heq. f_equal.
  by apply String.eqb_eq.
Qed.

Lemma is_str_body (b : value) (k s : string) :
  is_str (get b k) s = true → is_nullish b = false.
Proof. by destruct b. Qed.

(** A value that names a registry entry is truthy. *)
Lemma own_name_truthy (v : value) (t : tool) :
  assoc (to_string v) tools = Some t → truthy v = true.
Proof.
  destruct v as [| |[]|n|s|xs|fs]; simpl; try done.
  - destruct (Z.eqb_spec n 0) as [->|]; [|done]. by vm_compute.
  - destruct s; [|done]. by vm_compute.
Qed.

Lemma shouldStream_no (m : string) (ua : option string) (tr : list event) :
  existsb (λ p, String.prefix p m) streamableMethods = false →
  shouldStream (VStr m) ua tr = (tr, inr false).
Proof. intros Hpfx. unfold shouldStream. rewrite Hpfx. by case_match. Qed.

(** A request whose method has no streamable prefix and is not
    [initialize] goes straight to the buffered switch. *)
Lemma post_buffered (uuid : string) (now : Z) (req : request) (m : string) :
  is_str (get (body req) "jsonrpc") "2.0" = true →
  get (body req) "method" = VStr m →
  existsb (λ p, String.prefix p m) streamableMethods = false →
  is_str (VStr m) "initialize" = false →
  run (post uuid now req)
  = try_catch
      (dispatch false (VStr m) (get (body req) "id")
         (or_empty (get (body req) "params")) (req_session req))
      (post_catch req) [].
Proof.
  intros Hrpc Hm Hpfx Hinit.
  pose proof (is_str_body _ _ _ Hrpc) as Hb.
  unfold run, post, post_try, req_body. rewrite Hb.
  unfold try_catch at 1. mred. rewrite Hrpc, Hm, Hinit. simpl.
  destruct (req_session req); simpl;
    rewrite (shouldStream_no m _ _ Hpfx); simpl; done.
Qed.

Lemma post_tools_call (uuid : string) (now : Z) (req : request) :
  is_str (get (body req) "jsonrpc") "2.0" = true →
  is_str (get (body req) "method") "tools/call" = true →
  run (post uuid now req)
  = try_catch
      (case_tools_call false (get (body req) "id")
         (or_empty (get (body req) "params")))
      (post_catch req) [].
Proof.
  intros Hrpc Hm.
  by rewrite (post_buffered uuid now req "tools/call")
    by (done || by apply is_str_eq).
Qed.

Lemma post_prompts_get (uuid : string) (now : Z) (req : request) :
  is_str (get (body req) "jsonrpc") "2.0" = true →
  is_str (get (body req) "method") "prompts/get" = true →
  run (post uuid now req)
  = try_catch
      (case_prompts_get false (get (body req) "id")
         (or_empty (get (body req) "params")))
      (post_catch req) [].
Proof.
  intros Hrpc Hm.
  by rewrite (post_buffered uuid now req "prompts/get")
    by (done || by apply is_str_eq).
Qed.

(** The buffered [tools/call] branch on a request that names a
    registry entry. *)
Lemma tools_call_known (id params : value) (toolDef : tool) :
  assoc (to_string (get params "name")) tools = Some toolDef →
  case_tools_call false id (or_empty params) []
  = match zparse (schema toolDef) (or_empty (get params "arguments")) with
    | inl (issues, message) =>
        ([EvJson 500 (rpc_error id (tool_error (ZodError issues message)))],
         inr tt)
    | inr validatedArgs =>
        let called := EvCall (to_string (get params "name")) validatedArgs in
        match handler toolDef validatedArgs with
        | inl e => ([called; EvJson 500 (rpc_error id (tool_error e))], inr tt)
        | inr result => ([called; EvJson 200 (rpc_result id result)], inr tt)
        end
    end.
Proof.
  intros Hown. pose proof (own_name_truthy _ _ Hown) as Htruthy.
  assert (is_nullish (or_empty params) = false) as Hp by (by destruct params).
  unfold case_tools_call, destructure, has_tool, tools_get.
  rewrite Hp. mred. rewrite !get_or_empty, Htruthy, Hown. simpl.
  destruct (zparse _ _) as [[issues message]|validatedArgs]; simpl; [done|].
  by destruct (handler toolDef validatedArgs).
Qed.


(** C1.  A [tools/call] request (a JSON-RPC 2.0 envelope) that names a
    registry entry and whose arguments the entry's validator rejects is
    answered with one error body of code -32602 whose [data] is the
    validator's list of issues, and the tool's handler is not invoked. *)
Theorem tools_call_schema_rejection (uuid : string) (now : Z)
    (req : request) (toolDef : tool) (issues : value) (message : string) :
  let params := get (body req) "params" in
  is_str (get (body req) "jsonrpc") "2.0" = true →
  is_str (get (body req) "method") "tools/call" = true →
  assoc (to_string (get params "name")) tools = Some toolDef →
  zparse (schema toolDef) (or_empty (get params "arguments"))
  = inl (issues, message) →
  let tr := post_trace uuid now req in
  error_code (final_payload tr) = VNum (-32602) ∧
  error_data (final_payload tr) = issues ∧
  calls tr = [] ∧
  completions tr = 1%nat.
Proof.
  intros params Hrpc Hm Hown Hparse tr.
  assert (tr = [EvJson 500
                  (rpc_error (get (body req) "id")
                     (tool_error (ZodError issues message)))]) as ->.
  { unfold tr, post_trace. rewrite post_tools_call by done.
    unfold try_catch. fold params.
    by rewrite (tools_call_known _ params toolDef Hown), Hparse. }
  done.
Qed.

(** C2, at the failing input.  The name [constructor] matches no
    registry entry, but [tools["constructor"]] finds the member every
    object inherits, so the unknown-tool branch is skipped: the request
    is answered with code -32603 and no [availableTools], where the
    claim asks for -32601 with the list of registered names. *)
Theorem tools_call_inherited_name (uuid : string) (now : Z)
    (ua acc : option string) (session : option Session) :
  let req :=
    mkRequest ua acc session
      (rpc_request (VNum 1) "tools/call"
         (VObj [("name", VStr "constructor")])) in
  let tr := post_trace uuid now req in
  assoc "constructor" tools = None ∧
  tr = [EvJson 500
          (rpc_error (VNum 1)
             (tool_error
                (TypeError
                   "Cannot read properties of undefined (reading 'parse')")))]
  ∧ error_code (final_payload tr) = VNum (-32603)
  ∧ error_data (final_payload tr) = VUndefined.
Proof.
  intros req tr. split; [reflexivity|].
  assert (tr = [EvJson 500
          (rpc_error (VNum 1)
             (tool_error
                (TypeError
                   "Cannot read properties of undefined (reading 'parse')")))])
    as ->; [|done].
  unfold tr, post_trace. by rewrite post_tools_call.
Qed.


(** The outer [catch] reads the body only. *)
Lemma post_catch_body (r1 r2 : request) :
  body r1 = body r2 → post_catch r1 = post_catch r2.
Proof. intros Hb. unfold post_catch, req_body. by rewrite Hb. Qed.

(** C4.  The same [tools/call] request, delivered under any two
    negotiations (any [User-Agent] and [Accept] headers), yields the
    same JSON-RPC payload and the same handler invocations; with a
    valid envelope neither delivery is streamed.  And the branch itself
    is mode-independent: run with the streaming flag set or cleared it
    delivers the same payload, invokes the same handler and ends the
    same way; only the framing differs. *)
Theorem tools_call_mode_equivalence (uuid : string) (now : Z)
    (session : option Session) (b : value)
    (ua1 accept1 ua2 accept2 : option string) :
  is_str (get b "method") "tools/call" = true →
  let one := post_trace uuid now (mkRequest ua1 accept1 session b) in
  let other := post_trace uuid now (mkRequest ua2 accept2 session b) in
  final_payload one = final_payload other ∧
  calls one = calls other ∧
  (is_str (get b "jsonrpc") "2.0" = true →
     streamed one = false ∧ streamed other = false) ∧
  ∀ id params,
    let framed := run (case_tools_call true id params) in
    let plain := run (case_tools_call false id params) in
    final_payload (fst framed) = final_payload (fst plain) ∧
    calls (fst framed) = calls (fst plain) ∧
    snd framed = snd plain.
Proof.
  intros Hm one other.
  pose proof (is_str_body _ _ _ Hm) as Hb.
  assert (one = other) as Hsame.
  { unfold one, other, post_trace.
    destruct (is_str (get b "jsonrpc") "2.0") eqn:Hrpc.
    - by rewrite !post_tools_call.
    - unfold run, post, post_try, req_body. simpl. rewrite Hb.
      unfold try_catch. mred. by rewrite Hrpc. }
  split; [by rewrite Hsame|]. split; [by rewrite Hsame|]. split.
  - intros Hrpc. rewrite <- Hsame.
    cut (streamed one = false); [done|].
    unfold one, post_trace. rewrite post_tools_call by done. simpl.
    pose proof (dispatch_buffered (VStr "tools/call") (get b "id")
                  (or_empty (get b "params")) session [] eq_refl) as Hbo.
    unfold try_catch.
    change (dispatch false (VStr "tools/call") (get b "id")
              (or_empty (get b "params")) session [])
      with (case_tools_call false (get b "id")
              (or_empty (get b "params")) []) in Hbo.
    inversion Hbo as [mid status bd Hmid Heq | Heq | e Heq].
    + simpl. unfold streamed. rewrite existsb_app.
      rewrite (silent_existsb _ mid); [done | |done]. by intros [].
    + done.
    + unfold post_catch, req_body. simpl. rewrite Hb. by mred.
  - intros id params framed plain. unfold framed, plain, run.
    unfold case_tools_call, destructure, has_tool. mred.
    repeat first [progress simpl | case_inner]; done.
Qed.

Lemma includes_name_In (names : list string) (s : string) :
  includes_name names s = true ↔ In s names.
Proof.
  unfold includes_name. rewrite existsb_exists. split.
  - intros [x [Hin Heq]]. apply String.eqb_eq in Heq. by subst.
  - intros Hin. exists s. split; [done|]. apply String.eqb_refl.
Qed.




End Branches.

(* ===================================================================== *)
(** ** Properties of the metrics *)
(* ===================================================================== *)



Section MetricsRun.

Context {ext : Externals}.







End MetricsRun.

(* ===================================================================== *)
(** ** The theorems at concrete requests *)
(* ===================================================================== *)

Lemma tools_call_schema_rejection_witness :
  let tr := @post_trace example_world "s-1" 0 rejected_call in
  error_code (final_payload tr) = VNum (-32602) ∧
  error_data (final_payload tr) = example_issues ∧
  calls tr = [] ∧
  completions tr = 1%nat.
Proof.
  eapply (@tools_call_schema_rejection example_world "s-1" 0 rejected_call);
    reflexivity.
Defined.

Lemma tools_call_mode_equivalence_witness :
  let one := @post_trace example_world "s-1" 0
               (mkRequest None None None ping_call) in
  let other := @post_trace example_world "s-1" 0
                 (mkRequest (Some "curl/8.5") (Some "text/event-stream")
                    None ping_call) in
  final_payload one = final_payload other ∧
  calls one = calls other ∧
  (is_str (get ping_call "jsonrpc") "2.0" = true →
     streamed one = false ∧ streamed other = false) ∧
  ∀ id params,
    let framed := run (@case_tools_call example_world true id params) in
    let plain := run (@case_tools_call example_world false id params) in
    final_payload (fst framed) = final_payload (fst plain) ∧
    calls (fst framed) = calls (fst plain) ∧
    snd framed = snd plain.
Proof.
  apply (@tools_call_mode_equivalence example_world "s-1" 0 None ping_call
           None None (Some "curl/8.5") (Some "text/event-stream")).
  reflexivity.
Defined.






(** *** The end-to-end scenario *)

Example ping_pong :
  @post_trace example_world "s-1" 0 (mkRequest None None None ping_call)
  = [EvCall "ping" (VObj []);
     EvJson 200 (rpc_result (VNum 3) (text_content "pong"))].
Proof. reflexivity. Qed.

Example initialize_creates_session :
  @post_trace example_world "s-1" 5
    (mkRequest None None None (rpc_request (VNum 1) "initialize" VUndefined))
  = [EvSessionSet (mkSession "s-1" None 5 5 []);
     EvSetHeader "x-session-id" (VStr "s-1");
     EvJson 200
       (rpc_result (VNum 1) (@initialize_result example_world
                               (Some (mkSession "s-1" None 5 5 []))))].
Proof. reflexivity. Qed.

Example hundred_and_first_request :
  let hits := repeat (mkHit "10.0.0.7" 1000 VNull) 101 in
  let answers := answers_to "10.0.0.7" (snd (rate_run hits ∅)) in
  answers !! 99%nat
  = Some (Next [("X-RateLimit-Limit", VNum 100);
                ("X-RateLimit-Remaining", VNum 0);
                ("X-RateLimit-Reset", VNum 61)]) ∧
  answers !! 100%nat
  = Some (Reply 429
            (rate_limit_error VNull (mkEntry 101 61000) 1000)).
Proof. vm_compute. done. Qed.

(* ===================================================================== *)
(** ** Further properties of the POST handler *)
(* ===================================================================== *)

Section Handler.

Context {ext : Externals}.

(** [shouldStream] as a function of the request. *)
Lemma shouldStream_outcome (method : value) (ua : option string)
    (tr : list event) :
  shouldStream method ua tr
  = (tr,
     if match ua with Some u => includes u "Cursor" | None => false end
     then inr false
     else match method with
          | VUndefined | VNull => inr false
          | VStr m => inr (existsb (λ p, String.prefix p m) streamableMethods)
          | _ => inl (TypeError "method?.startsWith is not a function")
          end).
Proof. unfold shouldStream. by repeat case_match. Qed.

(** A POST with a valid envelope whose negotiation does not throw is
    the switch run under the outer [catch], after the session and stream
    set-up. *)
Lemma post_normal_form (uuid : string) (now : Z) (req : request) :
  is_str (get (body req) "jsonrpc") "2.0" = true →
  from_cursor req || testable (get (body req) "method") = true →
  run (post uuid now req)
  = try_catch
      (dispatch (negotiates req) (get (body req) "method")
         (get (body req) "id") (or_empty (get (body req) "params"))
         (session_in_use uuid now req))
      (post_catch req)
      (session_events uuid now req
       ++ if negotiates req
          then stream_opening (get (body req) "id")
                 (session_in_use uuid now req)
          else [])%list.
Proof.
  intros Hrpc Hm.
  pose proof (is_str_body _ _ _ Hrpc) as Hb.
  unfold run, post, post_try, req_body. rewrite Hb.
  unfold try_catch at 1. mred. rewrite Hrpc. simpl.
  unfold negotiates, session_in_use, session_events, creates_session,
    stream_opening, from_cursor in *.
  destruct (req_session req) as [s|];
    [|destruct (is_str (get (body req) "method") "initialize")];
    simpl; rewrite shouldStream_outcome.
  all: destruct (match user_agent req with
                 | Some u => includes u "Cursor" | None => false end);
    simpl; [done|].
  all: destruct (get (body req) "method") as [| | | |m| |]; try done.
  all: simpl;
    destruct (String.prefix "resources/read" m),
         (String.prefix "prompts/run" m); simpl;
    by destruct (match accept req with
                 | Some a => includes a "text/event-stream"
                 | None => false end).
Qed.

(** Otherwise the negotiation throws and the outer [catch] answers. *)
Lemma post_negotiation_throws (uuid : string) (now : Z) (req : request) :
  is_str (get (body req) "jsonrpc") "2.0" = true →
  from_cursor req || testable (get (body req) "method") = false →
  post_trace uuid now req
  = [EvJson 500
       (rpc_error (js_or (get (body req) "id") VNull)
          (VObj [("code", VNum (-32603));
                 ("message", VStr "method?.startsWith is not a function")]))]
  ∧ negotiates req = false.
Proof.
  intros Hrpc Hm.
  pose proof (is_str_body _ _ _ Hrpc) as Hb.
  unfold post_trace, run, post, post_try, post_catch, req_body. rewrite Hb.
  unfold try_catch at 1. mred. rewrite Hrpc. simpl.
  unfold negotiates, from_cursor in *.
  apply orb_false_iff in Hm as [Hua Hm]. rewrite Hua.
  destruct (get (body req) "method") as [| |b|n|m|xs|fs]; try done.
  all: destruct (req_session req); simpl; rewrite shouldStream_outcome;
    rewrite Hua; simpl; done.
Qed.

Lemma negotiates_not_initialize (req : request) :
  negotiates req = true → creates_session req = false.
Proof.
  unfold negotiates, creates_session.
  destruct (req_session req); [done|].
  destruct (get (body req) "method") as [| | | |m| |];
    rewrite ?andb_false_r; try done.
  intros [[_ Hm]%andb_true_iff _]%andb_true_iff.
  by destruct (streamable_route m Hm).
Qed.

Lemma streamed_app (tr1 tr2 : list event) :
  streamed (tr1 ++ tr2) = streamed tr1 || streamed tr2.
Proof. unfold streamed. apply existsb_app. Qed.

Lemma streamed_silent (tr : list event) :
  Forall (λ ev, is_silent ev = true) tr → streamed tr = false.
Proof. intros. apply silent_existsb; [|done]. by intros []. Qed.

Lemma session_events_silent (uuid : string) (now : Z) (req : request) :
  Forall (λ ev, is_silent ev = true) (session_events uuid now req).
Proof. unfold session_events. destruct (creates_session req); repeat constructor. Qed.

(** X1.  With a valid envelope, a POST is answered as an event stream
    exactly when the request negotiates one: the agent is not Cursor,
    the method is a string that starts with [resources/read] or
    [prompts/run], and the [Accept] header includes
    [text/event-stream].  Every other request, whatever it accepts, is
    answered buffered. *)
Theorem streaming_negotiation (uuid : string) (now : Z) (req : request) :
  is_str (get (body req) "jsonrpc") "2.0" = true →
  streamed (post_trace uuid now req) = negotiates req.
Proof.
  intros Hrpc. pose proof (is_str_body _ _ _ Hrpc) as Hb.
  destruct (from_cursor req || testable (get (body req) "method")) eqn:Hm.
  2: { destruct (post_negotiation_throws uuid now req Hrpc Hm) as [-> ->].
       done. }
  unfold post_trace. rewrite post_normal_form by done.
  pose proof (session_events_silent uuid now req) as Hsil.
  destruct (negotiates req) eqn:Hneg.
  - pose proof (negotiates_not_initialize req Hneg) as Hinit.
    unfold session_events in *. rewrite Hinit. simpl.
    unfold try_catch.
    assert (∃ m, get (body req) "method" = VStr m ∧
                 existsb (λ p, String.prefix p m) streamableMethods = true)
      as [m [Hmeth Hpfx]].
    { unfold negotiates in Hneg.
      destruct (get (body req) "method"); rewrite ?andb_false_r in Hneg;
        try done.
      apply andb_true_iff in Hneg as [[_ ?]%andb_true_iff _]. eauto. }
    rewrite Hmeth.
    pose proof (dispatch_streamed m (get (body req) "id")
                  (or_empty (get (body req) "params"))
                  (session_in_use uuid now req)
                  (stream_opening (get (body req) "id")
                     (session_in_use uuid now req)) Hpfx) as Hso.
    inversion Hso as [frame Hresp Hid Heq | e Heq]; [done|].
    unfold post_catch, req_body. rewrite Hb. by mred.
  - rewrite app_nil_r. unfold try_catch.
    pose proof (dispatch_buffered (get (body req) "method")
                  (get (body req) "id") (or_empty (get (body req) "params"))
                  (session_in_use uuid now req) _
                  (quiet_silent _ Hsil)) as Hbo.
    inversion Hbo as [mid status b Hmid Heq | Heq | e Heq]; simpl.
    + rewrite !streamed_app, (streamed_silent _ Hsil),
        (streamed_silent _ Hmid). done.
    + rewrite streamed_app, (streamed_silent _ Hsil). done.
    + unfold post_catch, req_body. rewrite Hb. mred.
      rewrite !(quiet_silent _ Hsil). simpl.
      rewrite streamed_app, (streamed_silent _ Hsil). done.
Qed.
End Handler.

Section HandlerBranches.

Context {ext : Externals}.



Lemma calls_app (tr1 tr2 : list event) :
  calls (tr1 ++ tr2) = (calls tr1 ++ calls tr2)%list.
Proof. unfold calls. apply omap_app. Qed.

Lemma calls_session_events (uuid : string) (now : Z) (req : request) :
  calls (session_events uuid now req) = [].
Proof. unfold session_events. by destruct (creates_session req). Qed.

(** X2.  An envelope whose [jsonrpc] member is not the string "2.0" is
    answered 400 with the protocol error -32600 and the request id (or
    [null] for a falsy id), whatever the method, the params and the
    headers are: no session is created, nothing is streamed and no
    handler runs. *)
Theorem invalid_envelope_rejected (uuid : string) (now : Z) (req : request) :
  is_nullish (body req) = false →
  is_str (get (body req) "jsonrpc") "2.0" = false →
  let tr := post_trace uuid now req in
  tr = [EvJson 400 (invalid_request (get (body req) "id"))] ∧
  error_code (final_payload tr) = VNum (-32600) ∧
  payload_id (final_payload tr) = js_or (get (body req) "id") VNull ∧
  calls tr = [] ∧ streamed tr = false.
Proof.
  intros Hb Hrpc tr.
  assert (tr = [EvJson 400 (invalid_request (get (body req) "id"))]) as ->;
    [|done].
  unfold tr, post_trace, run, post, post_try, req_body. rewrite Hb.
  unfold try_catch. mred. by rewrite Hrpc.
Qed.

(** X3.  [initialize] without a session creates one under the fresh
    id, stores it, announces it in the [x-session-id] header and returns
    it as [sessionId]; with a session (a request that bore a known
    [x-session-id]) nothing is created and that session's id is
    returned.  Either way the answer is one 200 result. *)
Theorem initialize_session (uuid : string) (now : Z) (req : request) :
  is_str (get (body req) "jsonrpc") "2.0" = true →
  is_str (get (body req) "method") "initialize" = true →
  let tr := post_trace uuid now req in
  let id := get (body req) "id" in
  match req_session req with
  | None =>
      let s := mkSession uuid None now now [] in
      tr = [EvSessionSet s; EvSetHeader "x-session-id" (VStr uuid);
            EvJson 200 (rpc_result id (initialize_result (Some s)))]
      ∧ get (payload_result (final_payload tr)) "sessionId" = VStr uuid
  | Some s =>
      tr = [EvJson 200 (rpc_result id (initialize_result (Some s)))]
      ∧ get (payload_result (final_payload tr)) "sessionId" = VStr (sid s)
  end.
Proof.
  intros Hrpc Hm tr id. apply is_str_eq in Hm.
  unfold tr, post_trace. rewrite post_normal_form; [|done|by rewrite Hm, orb_true_r].
  unfold negotiates, session_in_use, session_events, creates_session.
  rewrite Hm. simpl. rewrite !andb_false_r. simpl.
  unfold try_catch, dispatch. simpl. unfold case_initialize. mred.
  by destruct (req_session req).
Qed.

(** X4.  A [tools/call] that names a registry entry and passes its
    validator invokes that entry's handler exactly once, on the
    validated arguments.  The handler's result is returned as a 200
    result; when the handler throws, the answer is a 500 error whose
    code is -32603, or -32602 with the issues as data if what it threw
    is a ZodError. *)
Theorem tools_call_invokes_handler (uuid : string) (now : Z) (req : request)
    (toolDef : tool) (validatedArgs : value) :
  let params := get (body req) "params" in
  let name := to_string (get params "name") in
  is_str (get (body req) "jsonrpc") "2.0" = true →
  is_str (get (body req) "method") "tools/call" = true →
  assoc name tools = Some toolDef →
  zparse (schema toolDef) (or_empty (get params "arguments"))
  = inr validatedArgs →
  let tr := post_trace uuid now req in
  calls tr = [(name, validatedArgs)] ∧
  match handler toolDef validatedArgs with
  | inr result =>
      tr = [EvCall name validatedArgs;
            EvJson 200 (rpc_result (get (body req) "id") result)]
  | inl e =>
      tr = [EvCall name validatedArgs;
            EvJson 500 (rpc_error (get (body req) "id") (tool_error e))]
      ∧ (error_code (final_payload tr) = VNum (-32603)
         ∨ ∃ issues message,
             e = ZodError issues message ∧
             error_code (final_payload tr) = VNum (-32602) ∧
             error_data (final_payload tr) = issues)
  end.
Proof.
  intros params name Hrpc Hm Hown Hparse tr.
  assert (tr = fst (match handler toolDef validatedArgs with
                    | inl e =>
                        ([EvCall name validatedArgs;
                          EvJson 500 (rpc_error (get (body req) "id")
                                        (tool_error e))], inr tt)
                    | inr result =>
                        ([EvCall name validatedArgs;
                          EvJson 200 (rpc_result (get (body req) "id")
                                        result)], inr tt)
                    end : list event * (exn + unit))) as Htr.
  { unfold tr, post_trace. rewrite post_tools_call by done.
    unfold try_catch. fold params.
    rewrite (tools_call_known _ params toolDef Hown), Hparse. simpl.
    by destruct (handler toolDef validatedArgs). }
  destruct (handler toolDef validatedArgs) as [e|result]; simpl in Htr;
    rewrite Htr; [|done].
  split; [done|]. split; [done|].
  destruct e as [issues message|message|v]; simpl;
    [right; by exists issues, message | by left | by left].
Qed.


(** A request that does not negotiate a stream and creates no session
    starts its branch on an empty trace. *)
Lemma post_plain (uuid : string) (now : Z) (req : request) (m : string) :
  is_str (get (body req) "jsonrpc") "2.0" = true →
  get (body req) "method" = VStr m →
  existsb (λ p, String.prefix p m) streamableMethods = false →
  is_str (VStr m) "initialize" = false →
  post_trace uuid now req
  = fst (try_catch
           (dispatch false (VStr m) (get (body req) "id")
              (or_empty (get (body req) "params")) (req_session req))
           (post_catch req) []).
Proof.
  intros. unfold post_trace. by rewrite (post_buffered uuid now req m).
Qed.



Lemma existsb_opening (id : value) (session : option Session) :
  existsb sends_headers (stream_opening id session) = true.
Proof. done. Qed.



(** X6.  [resources/list] always succeeds: [listResources] answers the
    empty list when its body throws, so the request is answered with a
    200 result whose [totalResources] is the length of [resources],
    never with an error. *)
Theorem resources_list_never_fails (uuid : string) (now : Z) (req : request) :
  is_str (get (body req) "jsonrpc") "2.0" = true →
  is_str (get (body req) "method") "resources/list" = true →
  let listed := match resources_listing with
                | inl _ => []
                | inr resources => resources
                end in
  post_trace uuid now req
  = [EvJson 200
       (rpc_result (get (body req) "id")
          (VObj [("resources", VArr listed);
                 ("categories", getResourceCategories);
                 ("totalResources", VNum (Z.of_nat (length listed)))]))].
Proof.
  intros Hrpc Hm listed. apply is_str_eq in Hm.
  rewrite (post_plain uuid now req "resources/list") by done.
  unfold try_catch, dispatch. simpl.
  unfold case_resources_list, listResources, listed. mred.
  by destruct resources_listing.
Qed.

(** X7.  A method the switch does not know, a string or none at all, is
    answered with -32601 and a message that quotes it, as a 404 body or,
    when the request negotiates a stream, as the terminal frame. *)
Theorem unknown_method_not_found (uuid : string) (now : Z) (req : request) :
  let method := get (body req) "method" in
  is_str (get (body req) "jsonrpc") "2.0" = true →
  testable method = true →
  route_of method = RDefault →
  let tr := post_trace uuid now req in
  final_payload tr
  = Some (rpc_error (get (body req) "id")
            (VObj [("code", VNum (-32601));
                   ("message",
                     VStr ("Method '" ++ to_string method ++ "' not found"))]))
  ∧ completions tr = 1%nat
  ∧ calls tr = [].
Proof.
  intros method Hrpc Htest Hroute tr.
  assert (creates_session req = false) as Hnew.
  { unfold creates_session. destruct (req_session req); [done|].
    fold method. revert Hroute. unfold route_of.
    by destruct (is_str method "initialize"). }
  unfold tr, post_trace.
  rewrite post_normal_form; [|done|by fold method; rewrite Htest, orb_true_r].
  unfold session_events. rewrite Hnew. simpl.
  unfold try_catch, dispatch. fold method. rewrite Hroute.
  unfold case_default. mred.
  by destruct (negotiates req).
Qed.

End HandlerBranches.

Section StatusTable.

Context {ext : Externals}.

Lemma keeps_ret {A : Type} (a : A) : keeps_table (mret a).
Proof. by intros tr0 H0. Qed.

Lemma keeps_throw {A : Type} (e : exn) : keeps_table (throw (A:=A) e).
Proof. by intros tr0 H0. Qed.

Lemma keeps_await {A : Type} (p : exn + A) : keeps_table (await p).
Proof. by intros tr0 H0. Qed.

Lemma keeps_headersSent : keeps_table headersSent.
Proof. by intros tr0 H0. Qed.

Lemma keeps_bind {A B : Type} (m : M A) (k : A → M B) :
  keeps_table m → (∀ a, keeps_table (k a)) → keeps_table (m ≫= k).
Proof.
  intros Hm Hk tr0 H0. specialize (Hm tr0 H0).
  cbv [mbind M_bind]. destruct (m tr0) as [tr1 [e|a]]; [done|].
  by apply Hk.
Qed.

Lemma keeps_try_catch {A : Type} (m : M A) (h : exn → M A) :
  keeps_table m → (∀ e, keeps_table (h e)) → keeps_table (try_catch m h).
Proof.
  intros Hm Hh tr0 H0. specialize (Hm tr0 H0).
  unfold try_catch. destruct (m tr0) as [tr1 [e|a]]; [|done].
  by apply Hh.
Qed.

Lemma keeps_emit (ev : event) : body_fits ev → keeps_table (emit ev).
Proof.
  intros Hev tr0 H0. unfold emit. simpl. apply Forall_app_2; [done|].
  by constructor.
Qed.

Lemma keeps_res_json (status : Z) (b : value) :
  status_fits status b → keeps_table (res_json status b).
Proof.
  intros Hb tr0 H0. unfold res_json. mred.
  destruct (existsb sends_headers tr0); [done|]. simpl.
  apply Forall_app_2; [done|]. by constructor.
Qed.

Lemma keeps_reply (streaming : bool) (status : Z) (b : value) :
  status_fits status b → keeps_table (reply streaming status b).
Proof.
  intros Hb. unfold reply. destruct streaming.
  - apply keeps_bind; [by apply keeps_emit|].
    intros []. by apply keeps_emit.
  - by apply keeps_res_json.
Qed.

Lemma result_fits (id result : value) : status_fits 200 (rpc_result id result).
Proof. split; [done|]. by left. Qed.

Lemma error_fits (status code : Z) (id : value)
    (rest : list (string * value)) :
  (status = 400 ∧ (code = -32600 ∨ code = -32602))
  ∨ (status = 404 ∧ code = -32601)
  ∨ (status = 500 ∧ (code = -32602 ∨ code = -32603)) →
  status_fits status (rpc_error id (VObj (("code", VNum code) :: rest))).
Proof.
  intros H. split; [done|]. right. simpl.
  split; [done|]. split; [done|].
  destruct H as [[-> H]|[[-> ->]|[-> H]]].
  - left. split; [done|]. destruct H as [->| ->]; auto.
  - right. by left.
  - right. right. split; [done|]. destruct H as [->| ->]; auto.
Qed.

Lemma tool_error_fits (id : value) (e : exn) :
  status_fits 500 (rpc_error id (tool_error e)).
Proof. apply error_fits. right. right. destruct e; auto. Qed.

Ltac table :=
  first
    [ left; split; [reflexivity|]; first [left; reflexivity|right; reflexivity]
    | right; left; split; reflexivity
    | right; right; split; [reflexivity|];
      first [left; reflexivity|right; reflexivity] ].

Ltac keeps :=
  repeat first
    [ apply keeps_ret
    | apply keeps_throw
    | apply keeps_await
    | apply keeps_reply
    | apply keeps_res_json
    | apply result_fits
    | apply tool_error_fits
    | (apply error_fits; table)
    | (apply keeps_emit; exact I)
    | apply keeps_bind
    | apply keeps_try_catch
    | match goal with
      | |- ∀ _, _ => intro
      | |- keeps_table (if ?b then _ else _) => destruct b
      | |- keeps_table (match ?x with _ => _ end) => destruct x
      end ].

(** Every branch of the switch keeps the table, in either mode. *)
Lemma dispatch_keeps (streaming : bool) (method id params : value)
    (session : option Session) :
  keeps_table (dispatch streaming method id params session).
Proof.
  unfold dispatch. destruct (route_of method).
  - unfold case_initialize. keeps.
  - unfold case_tools_list. keeps.
  - unfold case_tools_call, destructure. keeps.
  - unfold case_resources_list, listResources. keeps.
  - unfold case_resources_read, getResource, destructure. keeps.
  - unfold case_prompts_list, listPrompts. keeps.
  - unfold case_prompts_get, getPrompt, destructure. keeps.
  - unfold case_notifications_initialized, res_end. keeps.
  - unfold case_notifications_message, res_end. keeps.
  - unfold case_default. keeps.
Qed.

(** X8.  The status table of the JSON-RPC endpoint.  Whatever the
    request, every object the handler hands to [res.json] is a JSON-RPC
    2.0 object whose HTTP status fits its content: 200 with a [result]
    member and no [error]; 400 with code -32600 or -32602; 404 with
    code -32601; 500 with code -32603, or -32602 from the [tools/call]
    catch.  No other status and no other code is ever written. *)
Theorem post_status_table (uuid : string) (now : Z) (req : request) :
  Forall body_fits (post_trace uuid now req).
Proof.
  unfold post_trace, run.
  cut (keeps_table (post uuid now req)); [intros H; by apply H|].
  unfold post, post_try, post_catch, req_body, invalid_request, shouldStream,
    sendSSE, res_end.
  keeps; first [apply dispatch_keeps | apply keeps_headersSent].
Qed.

End StatusTable.

Section Timers.

(** X9.  The session sweep as a whole: it keeps exactly the sessions
    that are not past the timeout, [removedCount] is the number of
    sessions that are, and the metrics receive the number of live
    sessions as [active] and the number of sessions before the sweep as
    [total]. *)
Theorem sweep_partition (now : Z) (sessions : gmap string Session) :
  fst (sweep now sessions) = live_sessions now sessions ∧
  snd (sweep now sessions)
  = Z.of_nat (size (expired_sessions now sessions)) ∧
  sweep_metrics now sessions
  = (Z.of_nat (size (live_sessions now sessions)),
     Z.of_nat (size sessions)).
Proof.
  assert (fst (sweep now sessions) = live_sessions now sessions) as Hlive.
  { apply map_eq. intros i. rewrite sweep_lookup.
    unfold live_sessions. rewrite map_lookup_filter.
    destruct (sessions !! i) as [s|]; [|done]. simpl.
    destruct (expired now s) eqn:Hexp.
    - by rewrite option_guard_False by (simpl; congruence).
    - by rewrite option_guard_True. }
  assert (size sessions
          = (size (live_sessions now sessions)
             + size (expired_sessions now sessions))%nat) as Hsize.
  { unfold live_sessions, expired_sessions.
    rewrite <- map_size_disj_union.
    - f_equal. symmetry.
      rewrite <- (map_filter_union_complement
                   (λ kv, expired now (snd kv) = false) sessions) at 3.
      f_equal. apply map_filter_ext. intros i s _. simpl.
      by destruct (expired now s).
    - apply map_disjoint_spec. intros i s1 s2 H1 H2.
      apply map_lookup_filter_Some in H1 as [H1 Hf].
      apply map_lookup_filter_Some in H2 as [H2 Ht].
      simpl in *. congruence. }
  pose proof (sweep_removedCount now sessions) as Hcount.
  unfold sweep_metrics.
  destruct (sweep now sessions) as [live removedCount]. simpl in *.
  subst live. split; [done|]. split; [lia|]. f_equal. lia.
Qed.

Lemma rate_sweep_loop_absent (now : Z)
    (entries : list (string * RateLimitEntry))
    (acc : gmap string RateLimitEntry) (c : string) :
  acc !! c = None →
  fold_left
    (λ acc kv,
       if (resetTime (snd kv) <? now)%Z then delete (fst kv) acc else acc)
    entries acc !! c
  = None.
Proof.
  revert acc. induction entries as [|[k e] entries IH]; intros acc Hc;
    [done|].
  simpl. apply IH. destruct (resetTime e <? now)%Z; [|done].
  rewrite lookup_delete. by case_decide.
Qed.

Lemma rate_sweep_loop_removes (now : Z)
    (entries : list (string * RateLimitEntry))
    (acc : gmap string RateLimitEntry) (c : string) (e : RateLimitEntry) :
  In (c, e) entries →
  (resetTime e <? now)%Z = true →
  fold_left
    (λ acc kv,
       if (resetTime (snd kv) <? now)%Z then delete (fst kv) acc else acc)
    entries acc !! c
  = None.
Proof.
  revert acc. induction entries as [|[k e'] entries IH];
    intros acc Hin Hexp; [done|].
  simpl. destruct Hin as [[= -> ->]|Hin].
  - rewrite Hexp. apply rate_sweep_loop_absent, lookup_delete_eq.
  - by apply IH.
Qed.

Lemma rate_sweep_lookup (now : Z) (store : gmap string RateLimitEntry)
    (c : string) :
  rate_sweep now store !! c
  = match store !! c with
    | Some e => if (resetTime e <? now)%Z then None else Some e
    | None => None
    end.
Proof.
  unfold rate_sweep. destruct (store !! c) as [e|] eqn:Hc.
  - destruct (Z.ltb_spec (resetTime e) now) as [Hlt|Hge].
    + apply (rate_sweep_loop_removes now _ _ c e).
      * apply list_elem_of_In. by apply elem_of_map_to_list.
      * by apply Z.ltb_lt.
    + by apply rate_sweep_keeps_live.
  - by apply rate_sweep_loop_absent.
Qed.

(** X10.  The clean-up timer of the rate-limit store removes exactly
    the windows that have closed ([now > resetTime]) and leaves every
    other entry as it is. *)
Theorem rate_sweep_open_windows (now : Z)
    (store : gmap string RateLimitEntry) :
  rate_sweep now store = open_windows now store.
Proof.
  apply map_eq. intros c. rewrite rate_sweep_lookup.
  unfold open_windows. rewrite map_lookup_filter.
  destruct (store !! c) as [e|]; [|done]. simpl.
  destruct (resetTime e <? now)%Z eqn:Hlt.
  - by rewrite option_guard_False by (simpl; congruence).
  - by rewrite option_guard_True.
Qed.

(** X11.  The clean-up timer cannot be observed through the limiter:
    a request that arrives after a clean-up is answered as it would
    have been without that clean-up, and the client's counter is the
    same afterwards, since the limiter itself replaces a closed
    window. *)
Theorem rate_sweep_unobserved (c : string) (swept now : Z) (id : value)
    (store : gmap string RateLimitEntry) :
  swept ≤ now →
  let after :=
    rateLimitMiddleware (Some "production") c now id (rate_sweep swept store) in
  let plain := rateLimitMiddleware (Some "production") c now id store in
  snd after = snd plain ∧ fst after !! c = fst plain !! c.
Proof.
  intros Hle after plain.
  set (fresh := mkEntry 0 (now + RATE_LIMIT_WINDOW)).
  assert (match rate_sweep swept store !! c with
          | Some e => if (resetTime e <? now)%Z then fresh else e
          | None => fresh
          end
          = match store !! c with
            | Some e => if (resetTime e <? now)%Z then fresh else e
            | None => fresh
            end) as Hentry.
  { rewrite rate_sweep_lookup. destruct (store !! c) as [e|]; [|done].
    destruct (Z.ltb_spec (resetTime e) swept) as [Hlt|Hge]; [|done].
    by replace (resetTime e <? now)%Z with true
      by (symmetry; apply Z.ltb_lt; lia). }
  unfold after, plain, rateLimitMiddleware. cbv zeta.
  rewrite bool_decide_eq_true_2 by done. simpl negb. cbv iota.
  fold fresh. rewrite Hentry.
  destruct (RATE_LIMIT_MAX_REQUESTS <? _)%Z; simpl;
    by rewrite !lookup_insert_eq.
Qed.

(** X12.  The session middleware never creates or removes a session:
    it changes the [lastActivity] of the session the [x-session-id]
    header names, if there is one, and nothing else. *)
Theorem touch_frame (sessionId : option string) (now : Z)
    (sessions : gmap string Session) (j : string) :
  touch sessionId now sessions !! j
  = match sessions !! j with
    | Some s =>
        if bool_decide (sessionId = Some j ∧ j ≠ "")
        then Some (mkSession (sid s) (clientId s) (createdAt s) now
                     (messageQueue s))
        else Some s
    | None => None
    end.
Proof.
  unfold touch. destruct sessionId as [i|].
  - destruct (String.eqb_spec i "") as [->|Hne].
    + destruct (sessions !! j); [|done].
      rewrite bool_decide_eq_false_2; [done|]. by intros [[= <-] ?].
    + destruct (decide (i = j)) as [->|Hij].
      * destruct (sessions !! j) as [s|] eqn:Hj; [|by rewrite Hj].
        rewrite lookup_insert_eq. by rewrite bool_decide_eq_true_2.
      * assert (bool_decide (Some i = Some j ∧ j ≠ "") = false) as ->.
        { apply bool_decide_eq_false_2. by intros [[= ?] ?]. }
        destruct (sessions !! i); [rewrite lookup_insert_ne by done|];
          by destruct (sessions !! j).
  - destruct (sessions !! j); [|done].
    rewrite bool_decide_eq_false_2; [done|]. by intros [? ?].
Qed.

End Timers.

Section Pipeline.

Context {ext : Externals}.

Lemma adds_ret {A : Type} (P : event → Prop) (a : A) : adds P (mret a).
Proof. intros tr0. exists []. by rewrite app_nil_r. Qed.

Lemma adds_throw {A : Type} (P : event → Prop) (e : exn) :
  adds P (throw (A:=A) e).
Proof. intros tr0. exists []. by rewrite app_nil_r. Qed.

Lemma adds_await {A : Type} (P : event → Prop) (p : exn + A) :
  adds P (await p).
Proof. intros tr0. exists []. by rewrite app_nil_r. Qed.

Lemma adds_headersSent (P : event → Prop) : adds P headersSent.
Proof. intros tr0. exists []. by rewrite app_nil_r. Qed.

Lemma adds_bind {A B : Type} (P : event → Prop) (m : M A) (k : A → M B) :
  adds P m → (∀ a, adds P (k a)) → adds P (m ≫= k).
Proof.
  intros Hm Hk tr0. destruct (Hm tr0) as [added [Heq Hadded]].
  cbv [mbind M_bind]. destruct (m tr0) as [tr1 [e|a]]; simpl in Heq.
  - by exists added.
  - destruct (Hk a tr1) as [added' [Heq' Hadded']]. subst tr1.
    exists (added ++ added')%list. rewrite Heq', app_assoc.
    split; [done|]. by apply Forall_app.
Qed.

Lemma adds_try_catch {A : Type} (P : event → Prop) (m : M A)
    (h : exn → M A) :
  adds P m → (∀ e, adds P (h e)) → adds P (try_catch m h).
Proof.
  intros Hm Hh tr0. destruct (Hm tr0) as [added [Heq Hadded]].
  unfold try_catch. destruct (m tr0) as [tr1 [e|a]]; simpl in Heq.
  - destruct (Hh e tr1) as [added' [Heq' Hadded']]. subst tr1.
    exists (added ++ added')%list. rewrite Heq', app_assoc.
    split; [done|]. by apply Forall_app.
  - by exists added.
Qed.

Lemma adds_emit (P : event → Prop) (ev : event) : P ev → adds P (emit ev).
Proof. intros Hev tr0. exists [ev]. split; [done|]. by constructor. Qed.

Lemma adds_res_json (P : event → Prop) (status : Z) (b : value) :
  P (EvJson status b) → adds P (res_json status b).
Proof.
  intros Hb. unfold res_json. apply adds_bind; [apply adds_headersSent|].
  intros []; [apply adds_throw|by apply adds_emit].
Qed.

Lemma adds_reply (P : event → Prop) (streaming : bool) (status : Z)
    (b : value) :
  P (EvJson status b) → P (EvSSE b) → P (EvEnd 200) →
  adds P (reply streaming status b).
Proof.
  intros Hjson Hsse Hend. unfold reply. destruct streaming.
  - apply adds_bind; [by apply adds_emit|]. intros _. by apply adds_emit.
  - by apply adds_res_json.
Qed.

Ltac adds :=
  repeat first
    [ apply adds_ret
    | apply adds_throw
    | apply adds_await
    | apply adds_headersSent
    | (apply adds_reply; exact I)
    | (apply adds_res_json; exact I)
    | (apply adds_emit; exact I)
    | apply adds_bind
    | apply adds_try_catch
    | match goal with
      | |- ∀ _, _ => intro
      | |- adds _ (if ?b then _ else _) => destruct b
      | |- adds _ (match ?x with _ => _ end) => destruct x
      end ].




Lemma security_passes (env key x_api auth : option string) (id : value)
    (hs : list (string * value)) :
  securityMiddleware env key x_api auth id = Next hs →
  hs = hardening_headers.
Proof.
  unfold securityMiddleware. by destruct (_ && _); intros [= <-].
Qed.

(** X14.  A request turned away by the API-key check or by the rate
    limiter leaves no mark: it is answered 401 or 429 with code -32000
    and the request id (or [null]), it is not counted in the metrics,
    and it does not refresh its session's [lastActivity] or create a
    session. *)
Theorem rejection_leaves_no_mark (app : App) (r : http_request)
    (b : value) :
  payload r = inr b →
  counted app r = false →
  metrics (fst (handle app r)) = metrics app ∧
  sessionStore (fst (handle app r)) = sessionStore app ∧
  ∃ status answer,
    snd (handle app r)
    = (set_headers hardening_headers ++ [EvJson status answer])%list ∧
    (status = 401 ∨ status = 429) ∧
    get (get answer "error") "code" = VNum (-32000) ∧
    get answer "id" = js_or (get b "id") VNull.
Proof.
  intros Hp. unfold counted, handle. rewrite Hp.
  destruct (securityMiddleware _ _ _ _ _) as [hardening|status answer]
    eqn:Hsec.
  - apply security_passes in Hsec as ->.
    destruct (rateLimitMiddleware _ _ _ _ _)
      as [store [limits|status answer]] eqn:Hrate; simpl; [done|].
    intros _. split; [done|]. split; [done|].
    exists status, answer. split; [done|].
    revert Hrate. unfold rateLimitMiddleware.
    destruct (negb _); [done|].
    destruct (RATE_LIMIT_MAX_REQUESTS <? _)%Z; [|done].
    intros [= _ <- <-]. auto.
  - intros _. split; [done|]. split; [done|].
    exists status, answer. split; [done|].
    revert Hsec. unfold securityMiddleware.
    destruct (_ && _); [|done]. intros [= <- <-]. auto.
Qed.


Lemma apply_sessions_keeps (tr : list event)
    (sessions : gmap string Session) :
  Forall keeps_sessions tr → apply_sessions tr sessions = sessions.
Proof.
  unfold apply_sessions. revert sessions.
  induction tr as [|ev tr IH]; intros sessions Hall; [done|].
  apply Forall_cons in Hall as [Hev Hall]. simpl.
  destruct ev; try done; by apply IH.
Qed.

(** A request that comes with a session sets none. *)
Lemma session_request_keeps (uuid : string) (now : Z) (req : request)
    (s : Session) :
  req_session req = Some s →
  Forall keeps_sessions (post_trace uuid now req).
Proof.
  intros Hs.
  cut (adds keeps_sessions (post uuid now req)).
  { intros Hadds. destruct (Hadds []) as [added [Heq Hadded]].
    unfold post_trace, run. by rewrite Heq. }
  unfold post, post_try, post_catch, req_body, shouldStream, sendSSE,
    res_end, dispatch.
  rewrite Hs.
  unfold case_initialize, case_tools_list, case_tools_call,
    case_resources_list, case_resources_read, case_prompts_list,
    case_prompts_get, case_notifications_initialized,
    case_notifications_message, case_default, destructure, listResources,
    getResource, listPrompts, getPrompt, res_end, sendSSE.
  adds.
Qed.

Lemma initialize_fresh_trace (uuid : string) (now : Z) (req : request) :
  is_str (get (body req) "jsonrpc") "2.0" = true →
  is_str (get (body req) "method") "initialize" = true →
  req_session req = None →
  let s := mkSession uuid None now now [] in
  post_trace uuid now req
  = [EvSessionSet s; EvSetHeader "x-session-id" (VStr uuid);
     EvJson 200
       (rpc_result (get (body req) "id") (initialize_result (Some s)))].
Proof.
  intros Hrpc Hm Hs. apply is_str_eq in Hm.
  unfold post_trace.
  rewrite post_normal_form; [|done|by rewrite Hm, orb_true_r].
  unfold negotiates, session_in_use, session_events, creates_session.
  rewrite Hm, Hs. simpl. rewrite !andb_false_r. simpl.
  unfold try_catch, dispatch. simpl. unfold case_initialize. by mred.
Qed.

Lemma session_of_touch (x : option string) (t : Z)
    (sessions : gmap string Session) :
  session_of x (touch x t sessions)
  = (λ s, mkSession (sid s) (clientId s) (createdAt s) t (messageQueue s))
    <$> session_of x sessions.
Proof.
  unfold session_of, touch. destruct x as [i|]; [|done].
  destruct (String.eqb i ""); [done|].
  destruct (sessions !! i) as [s|] eqn:Hi; simpl.
  - by rewrite lookup_insert_eq.
  - by rewrite Hi.
Qed.

(** X16.  A session lives across requests.  An [initialize] that
    passes the middleware and names no known session stores a new
    session under the fresh id; the next request that bears that id in
    [x-session-id] is handled with this very session, its
    [lastActivity] set to the time of that request, and the store then
    holds the refreshed session. *)
Theorem session_continuity (app : App) (r1 r2 : http_request)
    (b1 b2 : value) :
  payload r1 = inr b1 →
  counted app r1 = true →
  is_str (get b1 "jsonrpc") "2.0" = true →
  is_str (get b1 "method") "initialize" = true →
  session_of (x_session_id r1) (sessionStore app) = None →
  fresh r1 ≠ "" →
  payload r2 = inr b2 →
  x_session_id r2 = Some (fresh r1) →
  counted (fst (handle app r1)) r2 = true →
  let app1 := fst (handle app r1) in
  let app2 := fst (handle app1 r2) in
  let created t := mkSession (fresh r1) None (at_time r1) t [] in
  sessionStore app1 !! fresh r1 = Some (created (at_time r1)) ∧
  req_session (handled_request app1 r2 b2) = Some (created (at_time r2)) ∧
  sessionStore app2 !! fresh r1 = Some (created (at_time r2)).
Proof.
  intros Hp1 Hc1 Hrpc Hm Hnone Hfresh Hp2 Hx2 Hc2 app1 app2 created.
  assert (sessionStore app1 !! fresh r1 = Some (created (at_time r1)))
    as Hstored.
  { unfold app1. revert Hc1. unfold counted, handle. rewrite Hp1.
    destruct (securityMiddleware _ _ _ _ _); [|done].
    destruct (rateLimitMiddleware _ _ _ _ _) as [store [limits|? ?]];
      [|done].
    intros _. cbn [fst sessionStore].
    rewrite initialize_fresh_trace; cbn [body req_session]; try done.
    - unfold apply_sessions. simpl. apply lookup_insert_eq.
    - by rewrite session_of_touch, Hnone. }
  assert (req_session (handled_request app1 r2 b2)
          = Some (created (at_time r2))) as Hseen.
  { unfold handled_request. cbn [req_session].
    rewrite session_of_touch, Hx2. unfold session_of.
    destruct (String.eqb_spec (fresh r1) ""); [done|].
    by rewrite Hstored. }
  split; [done|]. split; [done|].
  unfold app2. revert Hc2. fold app1. unfold counted, handle. rewrite Hp2.
  destruct (securityMiddleware _ _ _ _ _); [|done].
  destruct (rateLimitMiddleware _ _ _ _ _) as [store [limits|? ?]];
    [|done].
  intros _. cbn [fst sessionStore].
  rewrite apply_sessions_keeps.
  - rewrite Hx2. by rewrite (touch_lookup _ _ _ _ Hfresh Hstored).
  - apply (session_request_keeps _ _ _ (created (at_time r2))).
    exact Hseen.
Qed.




End Pipeline.

Section Security.

Context {ext : Externals}.

(** X18.  What [GET /info] announces against what the middleware does.
    The [rateLimit] capability is [true] exactly when the rate limiter
    can turn a request away.  The [authentication] capability only says
    that a key is configured: a request is turned away for its
    credentials exactly when that flag is [true] and the server runs in
    production. *)
Theorem info_capabilities :
  let capabilities := get info "capabilities" in
  (get capabilities "rateLimit" = VBool true
   ↔ ∃ c now id store,
       rejects (snd (rateLimitMiddleware NODE_ENV c now id store))) ∧
  ((get capabilities "authentication" = VBool true
    ∧ NODE_ENV = Some "production")
   ↔ ∃ x_api_key authorization id,
       rejects (securityMiddleware NODE_ENV MCP_API_KEY x_api_key
                  authorization id)).
Proof.
  simpl. split.
  - split.
    + intros [= Hprod]. apply bool_decide_eq_true in Hprod.
      exists "c", 0, VNull, {[ "c" := mkEntry 100 1 ]}.
      unfold rateLimitMiddleware.
      rewrite (bool_decide_eq_true_2 _ Hprod). by simpl.
    + intros (c & now & id & store & Hrej). revert Hrej.
      unfold rateLimitMiddleware.
      destruct (bool_decide (NODE_ENV = Some "production")); [done|].
      by simpl.
  - unfold authentication_enabled, securityMiddleware. split.
    + intros [[= Hkey] Hprod]. exists None, None, VNull.
      rewrite (bool_decide_eq_true_2 _ Hprod).
      destruct MCP_API_KEY as [k|]; [|done]. by rewrite Hkey.
    + intros (x & a & id & Hrej). revert Hrej.
      destruct (bool_decide_reflect (NODE_ENV = Some "production"));
        [|done].
      destruct MCP_API_KEY as [k|]; [|done].
      by destruct (negb (k =? "")%string).
Qed.

End Security.

Lemma substring_all (s : string) : substring 0 (String.length s) s = s.
Proof. induction s as [|a s IH]; [done|]. simpl. by rewrite IH. Qed.

Lemma strip_bearer_prefix (k : string) : strip_bearer ("Bearer " ++ k) = k.
Proof.
  unfold strip_bearer.
  change ("Bearer " ++ k)
    with (String "B"%char (String "e"%char (String "a"%char
           (String "r"%char (String "e"%char (String "r"%char
           (String " "%char k))))))).
  match goal with
  | |- context [index 0 ?p ?s] =>
      assert (index 0 p s = Some 0%nat) as -> by (simpl; by destruct k)
  end.
  simpl. rewrite ?Nat.sub_0_r. apply substring_all.
Qed.

(** X19.  The credential check of a production server with key [k]:
    the [x-api-key] header decides when it is present and not empty,
    so the right key passes and a wrong one is turned away even beside
    an [Authorization] header with the right key; without [x-api-key],
    [Authorization: Bearer k] passes; without credentials the request
    is turned away. *)
Theorem api_key_credentials (k : string) (authorization : option string)
    (id : value) :
  k ≠ "" →
  let check x_api_key authorization :=
    securityMiddleware (Some "production") (Some k) x_api_key authorization
      id in
  check (Some k) authorization = Next hardening_headers ∧
  (∀ k', k' ≠ "" → k' ≠ k → rejects (check (Some k') authorization)) ∧
  check None (Some ("Bearer " ++ k)) = Next hardening_headers ∧
  check (Some "") (Some ("Bearer " ++ k)) = Next hardening_headers ∧
  rejects (check None None).
Proof.
  intros Hk check. unfold check, securityMiddleware.
  apply String.eqb_neq in Hk as Hkb. rewrite Hkb. simpl.
  split; [|split; [|split; [|split]]].
  - by rewrite bool_decide_eq_true_2.
  - intros k' Hk' Hne. apply String.eqb_neq in Hk'. rewrite Hk'.
    rewrite bool_decide_eq_false_2; [done|]. by intros [= ->].
  - rewrite strip_bearer_prefix. by rewrite bool_decide_eq_true_2.
  - rewrite strip_bearer_prefix. by rewrite bool_decide_eq_true_2.
  - done.
Qed.

Lemma mean_singleton (t : Z) : (inject_Z t == mean [t])%Q.
Proof. unfold mean, sum_list, Qeq. simpl. lia. Qed.

Lemma record_json_average (statusCode responseTime : Z) (reqBody : value)
    (m : Metrics) :
  average_consistent (record_json statusCode responseTime reqBody m).
Proof.
  unfold average_consistent, record_json.
  cbn [performance responseTimeHistory avgResponseTime].
  destruct (Z.eqb_spec
              (Z.of_nat
                 (length (responseTimeHistory (performance m)
                          ++ [responseTime])%list)) 1) as [Hone|Hmore].
  - destruct (responseTimeHistory (performance m)) as [|t history].
    + apply mean_singleton.
    + rewrite length_app in Hone. simpl in Hone. lia.
  - by destruct (_ ++ _)%list.
Qed.

Lemma record_events_average (elapsed : Z) (reqBody : value)
    (tr : list event) (m : Metrics) :
  average_consistent m →
  average_consistent (record_events elapsed reqBody tr m).
Proof.
  unfold record_events. revert m.
  induction tr as [|ev tr IH]; intros m Hm; [done|].
  simpl. destruct ev; try by apply IH.
  apply IH, record_json_average.
Qed.

Lemma compact_average (m : Metrics) :
  average_consistent m → average_consistent (compact m).
Proof.
  intros Hm. unfold compact.
  destruct (1000 <? _)%Z; [|done].
  unfold average_consistent. simpl.
  by destruct (drop _ _).
Qed.

Section Average.

Context {ext : Externals}.

Lemma handle_average (app : App) (r : http_request) :
  average_consistent (metrics app) →
  average_consistent (metrics (fst (handle app r))).
Proof.
  intros Hm. unfold handle. destruct (payload r) as [stack|b]; [done|].
  destruct (securityMiddleware _ _ _ _ _); [|done].
  destruct (rateLimitMiddleware _ _ _ _ _) as [store [limits|? ?]];
    [|done].
  cbn [fst metrics]. by apply record_events_average.
Qed.

(** X20.  [avgResponseTime] is kept equal to the mean of
    [responseTimeHistory]: whatever requests the server handles and
    whenever the history is compacted, the average reported by
    [GET /metrics] is the mean of the response times still in the
    history (after a compaction, of the last 500 only). *)
Theorem average_is_mean (app : App) (rs : list http_request) :
  average_consistent (metrics app) →
  average_consistent (metrics (fst (serve app rs))) ∧
  average_consistent (compact (metrics (fst (serve app rs)))).
Proof.
  intros Hm.
  cut (average_consistent (metrics (fst (serve app rs)))).
  { intros H. split; [done|]. by apply compact_average. }
  revert app Hm. induction rs as [|r rs IH]; intros app Hm; [done|].
  simpl. pose proof (handle_average app r Hm) as Hstep.
  destruct (handle app r) as [app1 tr]. simpl in Hstep.
  specialize (IH app1 Hstep).
  by destruct (serve app1 rs) as [app2 trs].
Qed.

End Average.

(** X21.  The history clean-up bounds the history and forgets only the
    oldest entries: afterwards at most 1000 response times are kept,
    they are the latest ones in their order, exactly 500 of them when
    the history had grown past 1000, and no counter is changed. *)
Theorem compact_bounds (m : Metrics) :
  let before := responseTimeHistory (performance m) in
  let after := responseTimeHistory (performance (compact m)) in
  (length after ≤ 1000)%nat ∧
  after `suffix_of` before ∧
  ((1000 < length before)%nat → length after = 500%nat) ∧
  ((length before ≤ 1000)%nat → compact m = m) ∧
  requests (compact m) = requests m ∧
  sessions (compact m) = sessions m.
Proof.
  unfold compact.
  destruct (Z.ltb_spec 1000
              (Z.of_nat (length (responseTimeHistory (performance m)))))
    as [Hlong|Hshort]; simpl.
  - rewrite length_drop. repeat split; try lia.
    apply suffix_drop.
  - repeat split; try lia. done.
Qed.

Section Connections.

Context {ext : Externals}.


(** X23.  An open [GET /] connection does not keep its session alive:
    the heartbeat does not touch [lastActivity], so the sweep removes
    the session once 30 minutes have passed since the connection was
    opened, unless a request bearing its id has refreshed it. *)
Theorem sse_session_expires (sessionId : string) (opened swept : Z)
    (sessions : gmap string Session) (m : Metrics) :
  SESSION_TIMEOUT < swept - opened →
  fst (sweep swept (fst (fst (sse_open sessionId opened sessions m))))
    !! sessionId
  = None.
Proof.
  intros Hlate. rewrite sweep_lookup. unfold sse_open. cbn [fst].
  rewrite lookup_insert_eq. unfold expired. cbn [lastActivity].
  by replace (SESSION_TIMEOUT <? swept - opened) with true
    by (symmetry; apply Z.ltb_lt; lia).
Qed.

(** X24.  The three places that describe the tools agree.  [GET
    /tools] and [tools/list] give every tool the same name,
    description, category, category details and input schema;
    [tools/list], [GET /tools] and [GET /info] report the same total;
    every registered tool is listed under the category it is given,
    so none gets its category by the fallback; and the numbers under
    [byCategory] add up to the total. *)
Theorem tool_listings_agree :
  (∀ entry k, get (tool_details entry) k = get (tool_entry entry) k) ∧
  get (get tools_endpoint "summary") "total"
  = get tools_list_result "totalTools" ∧
  get (get info "tools") "total" = get tools_list_result "totalTools" ∧
  (∀ name, In name tool_names →
     ∃ names, In (category_of categorizeTools name, names) categorizeTools
              ∧ In name names) ∧
  VNum (sum_list (category_counts byCategory))
  = get tools_list_result "totalTools".
Proof.
  split; [|split; [|split; [|split]]]; try reflexivity.
  - intros entry k. unfold tool_details, tool_entry, get, assoc.
    repeat match goal with
           | |- context [String.eqb k ?s] =>
               destruct (String.eqb_spec k s) as [->|?]; simpl; try done
           end.
  - intros name Hin. unfold tool_names in Hin. simpl in Hin.
    repeat (destruct Hin as [<-|Hin];
            [eexists; split; [simpl; eauto 10|simpl; eauto 15]|]).
    done.
Qed.

Lemma listed_prompts_catalog (s : string) :
  In (VStr s) listed_prompts ↔ In s prompt_catalog.
Proof.
  unfold listed_prompts, prompt_catalog, prompts. simpl. split.
  - intros H. repeat (destruct H as [[= <-]|H]; [simpl; tauto|]). done.
  - intros H. repeat (destruct H as [<-|H]; [simpl; tauto|]). done.
Qed.

(** What [getPrompt] answers. *)
Lemma getPrompt_value (name args : value) (tr : list event) :
  getPrompt name args tr
  = (tr,
     inr (match name with
          | VStr s =>
              if includes_name prompt_catalog s
              then if is_nullish (or_empty args) then VNull
                   else match generate s (or_empty args) with
                        | inr v => v
                        | inl _ => VNull
                        end
              else VNull
          | _ => VNull
          end)).
Proof.
  unfold getPrompt. mred. fold (or_empty args).
  destruct name; try done.
  destruct (includes_name _ _); [|done].
  destruct (is_nullish _); [done|].
  by destruct (generate _ _).
Qed.

(** X25.  [prompts/get] resolves exactly the names that [prompts/list]
    announces.  For a string name (params and arguments not [null]):
    a listed name whose generator returns a prompt is answered 200
    with that prompt as the result; a name that is not listed is
    answered 404 with -32601 and names the prompt in its message. *)
Theorem prompts_get_listed (uuid : string) (now : Z) (req : request)
    (s : string) :
  let params := get (body req) "params" in
  let args := or_empty (get params "arguments") in
  let id := get (body req) "id" in
  is_str (get (body req) "jsonrpc") "2.0" = true →
  is_str (get (body req) "method") "prompts/get" = true →
  get params "name" = VStr s →
  s ≠ "" →
  args ≠ VNull →
  let tr := post_trace uuid now req in
  (In (VStr s) listed_prompts →
   ∀ prompt, generate s args = inr prompt → truthy prompt = true →
             tr = [EvJson 200 (rpc_result id prompt)]) ∧
  (¬ In (VStr s) listed_prompts →
   tr = [EvJson 404
           (rpc_error id
              (VObj [("code", VNum (-32601));
                     ("message", VStr ("Prompt not found: " ++ s))]))]).
Proof.
  intros params args id Hrpc Hm Hs Hne Hargs tr.
  assert (is_nullish (or_empty params) = false) as Hp.
  { destruct params; try done. }
  assert (is_nullish args = false) as Ha.
  { unfold args in *. by destruct (get params "arguments"). }
  assert (truthy (VStr s) = true) as Htruthy.
  { simpl. by destruct (String.eqb_spec s ""). }
  assert (or_empty args = args) as Hidem.
  { unfold args. by destruct (get params "arguments"). }
  assert (tr = let prompt :=
                 if includes_name prompt_catalog s
                 then match generate s args with
                      | inr v => v
                      | inl _ => VNull
                      end
                 else VNull in
               if truthy prompt
               then [EvJson 200 (rpc_result id prompt)]
               else [EvJson 404
                       (rpc_error id (prompt_not_found (VStr s)))]) as Htr.
  { unfold tr, post_trace. rewrite post_prompts_get by done.
    unfold try_catch at 1. fold params id.
    unfold case_prompts_get, destructure. rewrite Hp.
    cbv [mbind M_bind mret M_ret]. rewrite !get_or_empty. fold params.
    rewrite Hs, Htruthy. cbn [negb].
    unfold try_catch. fold args. rewrite getPrompt_value, Hidem, Ha.
    cbv zeta. unfold reply, res_json. mred.
    by destruct (truthy (if includes_name prompt_catalog s then _ else _)). }
  cbv zeta in Htr. split.
  - intros Hin prompt Hgen Hprompt.
    apply listed_prompts_catalog, includes_name_In in Hin.
    rewrite Hin, Hgen, Hprompt in Htr. exact Htr.
  - intros Hout.
    assert (includes_name prompt_catalog s = false) as Hcat.
    { destruct (includes_name prompt_catalog s) eqn:Hcat; [|done].
      apply includes_name_In, listed_prompts_catalog in Hcat. done. }
    rewrite Hcat in Htr. exact Htr.
Qed.

End Connections.

(** X26.  The rate-limit headers of a request that passes.  With [e]
    the client's entry after the request: the limit is 100;
    [X-RateLimit-Remaining] is [100 - e.count] and is not negative, so
    the [Math.max(0, ...)] never clamps; and [X-RateLimit-Reset] is
    the end of the window in seconds, rounded up.  The window ends at
    or after the request. *)
Theorem rate_limit_headers (c : string) (now : Z) (id : value)
    (store store' : gmap string RateLimitEntry)
    (headers : list (string * value)) :
  rateLimitMiddleware (Some "production") c now id store
  = (store', Next headers) →
  ∃ e,
    store' !! c = Some e ∧
    headers = [("X-RateLimit-Limit", VNum 100);
               ("X-RateLimit-Remaining", VNum (100 - count e));
               ("X-RateLimit-Reset", VNum (ceil_div_1000 (resetTime e)))] ∧
    0 ≤ 100 - count e ∧
    now ≤ resetTime e ∧
    resetTime e ≤ 1000 * ceil_div_1000 (resetTime e) < resetTime e + 1000.
Proof.
  unfold rateLimitMiddleware. simpl.
  set (entry := match store !! c with
                | Some e =>
                    if (resetTime e <? now)%Z
                    then mkEntry 0 (now + RATE_LIMIT_WINDOW) else e
                | None => mkEntry 0 (now + RATE_LIMIT_WINDOW)
                end).
  assert (now ≤ resetTime entry) as Hlive.
  { unfold entry, RATE_LIMIT_WINDOW. destruct (store !! c) as [e|].
    - destruct (Z.ltb_spec (resetTime e) now); simpl; lia.
    - simpl. lia. }
  destruct (Z.ltb_spec RATE_LIMIT_MAX_REQUESTS (count entry + 1))
    as [Hover|Hwithin]; [done|].
  intros [= <- <-].
  exists (mkEntry (count entry + 1) (resetTime entry)).
  rewrite lookup_insert_eq. cbn [count resetTime].
  unfold RATE_LIMIT_MAX_REQUESTS in *.
  split; [done|]. split; [by rewrite Z.max_r by lia|].
  split; [lia|]. split; [done|].
  unfold ceil_div_1000.
  pose proof (Z.div_mod (- resetTime entry) 1000 ltac:(lia)).
  pose proof (Z.mod_pos_bound (- resetTime entry) 1000 ltac:(lia)).
  lia.
Qed.

(* ===================================================================== *)
(** ** The further properties at concrete requests *)
(* ===================================================================== *)

Lemma streaming_negotiation_witness :
  streamed (@post_trace example_world "s-1" 0 streamed_read)
  = negotiates streamed_read.
Proof.
  apply (@streaming_negotiation example_world "s-1" 0 streamed_read).
  reflexivity.
Defined.

Lemma invalid_envelope_rejected_witness :
  let tr := @post_trace example_world "s-1" 0 bad_envelope in
  tr = [EvJson 400 (invalid_request (VNum 9))] ∧
  error_code (final_payload tr) = VNum (-32600) ∧
  payload_id (final_payload tr) = VNum 9 ∧
  calls tr = [] ∧ streamed tr = false.
Proof.
  apply (@invalid_envelope_rejected example_world "s-1" 0 bad_envelope);
    reflexivity.
Defined.

Lemma initialize_session_witness :
  let tr := @post_trace example_world "s-1" 5 initialize_call in
  let s := mkSession "s-1" None 5 5 [] in
  tr = [EvSessionSet s; EvSetHeader "x-session-id" (VStr "s-1");
        EvJson 200
          (rpc_result (VNum 1) (@initialize_result example_world (Some s)))]
  ∧ get (payload_result (final_payload tr)) "sessionId" = VStr "s-1".
Proof.
  apply (@initialize_session example_world "s-1" 5 initialize_call);
    reflexivity.
Defined.

Lemma tools_call_invokes_handler_witness :
  let tr := @post_trace example_world "s-1" 0 module_list_call in
  calls tr = [("get_module_list", VObj [])] ∧
  tr = [EvCall "get_module_list" (VObj []);
        EvJson 200
          (rpc_result (VNum 5) (text_content "called get_module_list"))].
Proof.
  apply (@tools_call_invokes_handler example_world "s-1" 0 module_list_call
           (snd (@remote example_world "get_module_list"
                   "Get a list of all modules in the system" []))
           (VObj []));
    reflexivity.
Defined.


Lemma resources_list_never_fails_witness :
  @post_trace development_world "s-1" 0 resources_list_call
  = [EvJson 200
       (rpc_result (VNum 8)
          (VObj [("resources", VArr []);
                 ("categories", getResourceCategories);
                 ("totalResources", VNum 0)]))].
Proof.
  apply (@resources_list_never_fails development_world "s-1" 0
           resources_list_call); reflexivity.
Defined.

Lemma unknown_method_not_found_witness :
  let tr := @post_trace example_world "s-1" 0 prompts_run_call in
  final_payload tr
  = Some (rpc_error (VNum 6)
            (VObj [("code", VNum (-32601));
                   ("message", VStr "Method 'prompts/run' not found")]))
  ∧ completions tr = 1%nat
  ∧ calls tr = [].
Proof.
  apply (@unknown_method_not_found example_world "s-1" 0 prompts_run_call);
    reflexivity.
Defined.

Lemma rate_sweep_unobserved_witness :
  let c := "10.0.0.7" in
  let store : gmap string RateLimitEntry := {[ c := mkEntry 100 61000 ]} in
  let after :=
    rateLimitMiddleware (Some "production") c 70500 VNull
      (rate_sweep 70000 store) in
  let plain := rateLimitMiddleware (Some "production") c 70500 VNull store in
  snd after = snd plain ∧ fst after !! c = fst plain !! c.
Proof.
  apply (rate_sweep_unobserved "10.0.0.7" 70000 70500 VNull
           {[ "10.0.0.7" := mkEntry 100 61000 ]}).
  lia.
Defined.


Lemma rejection_leaves_no_mark_witness :
  let after := @handle example_world exhausted_app ping_post in
  metrics (fst after) = metrics exhausted_app ∧
  sessionStore (fst after) = sessionStore exhausted_app ∧
  ∃ status answer,
    snd after
    = (set_headers hardening_headers ++ [EvJson status answer])%list ∧
    (status = 401 ∨ status = 429) ∧
    get (get answer "error") "code" = VNum (-32000) ∧
    get answer "id" = js_or (VNum 3) VNull.
Proof.
  apply (@rejection_leaves_no_mark example_world exhausted_app ping_post
           ping_call); reflexivity.
Defined.


Lemma session_continuity_witness :
  let app1 := fst (@handle example_world (initial_app 0) initialize_post) in
  let app2 := fst (@handle example_world app1 ping_in_session) in
  let created t := mkSession "s-1" None 1000 t [] in
  sessionStore app1 !! "s-1" = Some (created 1000) ∧
  req_session (handled_request app1 ping_in_session ping_call)
  = Some (created 2000) ∧
  sessionStore app2 !! "s-1" = Some (created 2000).
Proof.
  apply (@session_continuity example_world (initial_app 0) initialize_post
           ping_in_session (rpc_request (VNum 1) "initialize" VUndefined)
           ping_call);
    try reflexivity; discriminate.
Defined.


Lemma api_key_credentials_witness :
  let check x_api_key authorization :=
    securityMiddleware (Some "production") (Some "secret") x_api_key
      authorization (VNum 1) in
  check (Some "secret") (Some "Bearer secret") = Next hardening_headers ∧
  (∀ k', k' ≠ "" → k' ≠ "secret" →
         rejects (check (Some k') (Some "Bearer secret"))) ∧
  check None (Some ("Bearer " ++ "secret")) = Next hardening_headers ∧
  check (Some "") (Some ("Bearer " ++ "secret")) = Next hardening_headers ∧
  rejects (check None None).
Proof.
  apply (api_key_credentials "secret" (Some "Bearer secret") (VNum 1)).
  discriminate.
Defined.

Lemma average_is_mean_witness :
  let served :=
    metrics (fst (@serve example_world (initial_app 0)
                    [ping_post; malformed_post; unknown_tool_post])) in
  average_consistent served ∧ average_consistent (compact served).
Proof.
  apply (@average_is_mean example_world (initial_app 0)
           [ping_post; malformed_post; unknown_tool_post]).
  exact I.
Defined.


Lemma sse_session_expires_witness :
  fst (sweep 1800001
         (fst (fst (@sse_open example_world "s-9" 0 ∅ (initial_metrics 0)))))
    !! "s-9"
  = None.
Proof.
  apply (@sse_session_expires example_world "s-9" 0 1800001 ∅
           (initial_metrics 0)).
  reflexivity.
Defined.

Lemma prompts_get_listed_witness :
  let s := "analyze_doctype" in
  let args := VObj [("doctype_name", VStr "Customer")] in
  let tr := @post_trace development_world "s-1" 0 known_prompt in
  (In (VStr s) listed_prompts →
   ∀ prompt, @generate development_world s args = inr prompt →
             truthy prompt = true →
             tr = [EvJson 200 (rpc_result (VNum 4) prompt)]) ∧
  (¬ In (VStr s) listed_prompts →
   tr = [EvJson 404
           (rpc_error (VNum 4)
              (VObj [("code", VNum (-32601));
                     ("message", VStr ("Prompt not found: " ++ s))]))]).
Proof.
  apply (@prompts_get_listed development_world "s-1" 0 known_prompt
           "analyze_doctype");
    try reflexivity; discriminate.
Defined.

Lemma rate_limit_headers_witness :
  ∃ e,
    (<["10.0.0.7" := mkEntry 1 61000]> ∅ : gmap string RateLimitEntry)
      !! "10.0.0.7" = Some e ∧
    [("X-RateLimit-Limit", VNum 100);
     ("X-RateLimit-Remaining", VNum 99);
     ("X-RateLimit-Reset", VNum 61)]
    = [("X-RateLimit-Limit", VNum 100);
       ("X-RateLimit-Remaining", VNum (100 - count e));
       ("X-RateLimit-Reset", VNum (ceil_div_1000 (resetTime e)))] ∧
    0 ≤ 100 - count e ∧
    1000 ≤ resetTime e ∧
    resetTime e ≤ 1000 * ceil_div_1000 (resetTime e) < resetTime e + 1000.
Proof.
  apply (rate_limit_headers "10.0.0.7" 1000 VNull ∅).
  reflexivity.
Defined.

Section Edges.

Context {ext : Externals}.


Lemma record_events_sessions (elapsed : Z) (reqBody : value)
    (tr : list event) (m : Metrics) :
  sessions (record_events elapsed reqBody tr m) = sessions m ∧
  uptime (record_events elapsed reqBody tr m) = uptime m.
Proof.
  unfold record_events. revert m.
  induction tr as [|ev tr IH]; intros m; [done|].
  simpl. destruct ev; try apply IH.
  destruct (IH (record_json status elapsed reqBody m)) as [-> ->]. done.
Qed.

Lemma handle_sessions (app : App) (r : http_request) :
  sessions (metrics (fst (handle app r))) = sessions (metrics app) ∧
  uptime (metrics (fst (handle app r))) = uptime (metrics app).
Proof.
  unfold handle. destruct (payload r) as [stack|b]; [done|].
  destruct (securityMiddleware _ _ _ _ _); [|done].
  destruct (rateLimitMiddleware _ _ _ _ _) as [store [limits|? ?]];
    [|done].
  cbn [fst metrics].
  match goal with
  | |- context [record_events ?el ?rb ?tr ?m0] =>
      destruct (record_events_sessions el rb tr m0) as [-> ->]
  end.
  done.
Qed.

(** X28.  No request to the JSON-RPC endpoint changes the session
    counters of the metrics or the start time: a session that
    [initialize] creates is stored, but [sessions.active] and
    [sessions.total] stay as the last [GET /] connection or sweep left
    them. *)
Theorem requests_keep_session_metrics (app : App)
    (rs : list http_request) :
  sessions (metrics (fst (serve app rs))) = sessions (metrics app) ∧
  uptime (metrics (fst (serve app rs))) = uptime (metrics app).
Proof.
  revert app. induction rs as [|r rs IH]; intros app; [done|].
  simpl. pose proof (handle_sessions app r) as [Hs Hu].
  destruct (handle app r) as [app1 tr]. simpl in Hs, Hu.
  specialize (IH app1).
  destruct (serve app1 rs) as [app2 trs]. simpl in *.
  destruct IH as [-> ->]. done.
Qed.

End Edges.


